(** * qtercon: the command window of the rcon client

    A shallow embedding of [src/commandwindow.cpp]: the rate limiter of
    [CommandWindow::sendCommand], the transcript logger
    [CommandWindow::writeToLog], the periodic status poll and the
    constructor, over a small model of the Qt classes they call
    ([QDateTime], [QSettings]/[QVariant], [QFile]/[QTextStream]).

    Conventions.
    - A [QString] is modelled by its UTF-8 encoding (a [string]); a
      [QByteArray] is a list of bytes.  Every command that reaches
      [sendCommand] is either an ASCII literal or the result of
      [QString::toUtf8], so the implicit [QString::fromUtf8] of
      [QString::append(QByteArray)] is the identity on the encoding.
    - A [QDateTime] is its number of milliseconds since the epoch, the
      [qint64] Qt stores.
    - Side effects are threaded through a state monad over [World]: the
      system clock, the file system, and the ordered trace of calls made
      on the file, on the two UDP clients and on the output widget. *)

From Stdlib Require Import ZArith String List Lia DecimalString.
From stdpp Require Import gmap strings list pretty.

Open Scope Z_scope.

(** ** The Qt classes used by the window *)

Module Qt.

Definition QString : Type := string.
Definition QByteArray : Type := list Byte.byte.

(** [QString::fromUtf8] on the UTF-8 model of [QString]. *)
Definition fromUtf8 (ba : QByteArray) : QString := string_of_list_byte ba.

(** A C string literal used where a [QByteArray] is expected. *)
Definition literal (s : string) : QByteArray := list_byte_of_string s.

(** The line feed of the C escape [\n]. *)
Definition LF : QString := String (Ascii.ascii_of_nat 10) EmptyString.

(** *** QDateTime *)

Definition QDateTime : Type := Z.

(** Two's complement reading of a 64-bit result. *)
Definition wrap64 (z : Z) : Z := (z + 2 ^ 63) mod 2 ^ 64 - 2 ^ 63.

(** [QDateTime::msecsTo]: [other - this] in [qint64]. *)
Definition msecsTo (self other : QDateTime) : Z := wrap64 (other - self).

Definition msecsPerDay : Z := 86400000.

(** The rules of the system time zone, in milliseconds: the offset from
    UTC in force at an instant, and the offset the system gives to a
    wall-clock time when it converts it back (which also settles the
    wall-clock times that a change of the clocks skips or repeats). *)
Class TimeZone : Type := {
  offsetFromUtc : QDateTime -> Z;
  offsetFromLocal : Z -> Z
}.

(** [QDateTime::addDays] on a local-time value such as the result of
    [currentDateTime()]: the date moves by [ndays], the wall-clock time is
    kept, and the result is converted back by the rules of the zone. *)
Definition addDays `{TimeZone} (self : QDateTime) (ndays : Z) : QDateTime :=
  let wall := self + offsetFromUtc self in
  let moved := wall + ndays * msecsPerDay in
  moved - offsetFromLocal moved.


(** Clock readings for which the [qint64] difference of any two is exact. *)
Definition clock_range (t : QDateTime) : Prop := - 2 ^ 61 <= t < 2 ^ 61.

(** *** QVariant and QSettings *)

Inductive QVariant : Type :=
| QVInt (n : Z)
| QVString (s : QString).

(** [QString::toInt]: [None] when the conversion fails. *)
Definition toInt (s : QString) : option Z :=
  Z.of_int <$> NilZero.int_of_string s.

(** [operator==(const QVariant &, const char * )]: the right operand is
    promoted to a string variant; two strings compare as strings, an
    integer on the left makes Qt convert the string to an integer first
    and the comparison fails when that conversion does. *)
Definition QVariant_eq_literal (v : QVariant) (lit : QString) : bool :=
  match v with
  | QVString s => String.eqb s lit
  | QVInt n =>
      match toInt lit with
      | Some m => n =? m
      | None => false
      end
  end.

(** [QVariant::toInt]: 0 when the conversion fails. *)
Definition QVariant_toInt (v : QVariant) : Z :=
  match v with
  | QVInt n => n
  | QVString s => default 0 (toInt s)
  end.

(** The key/value view of a loaded [QSettings] object. *)
Abbreviation QSettings := (gmap string QVariant).

(** [QSettings::value(key, defaultValue)]. *)
Definition value (settings : QSettings) (key : QString) (defaultValue : QVariant)
  : QVariant :=
  default defaultValue (settings !! key).

(** *** QIODevice open modes *)

Definition ReadOnly : Z := 1.
Definition WriteOnly : Z := 2.
Definition Append : Z := 4.
Definition Truncate : Z := 8.

Definition has_flag (mode flag : Z) : bool := negb (Z.land mode flag =? 0).

(** For files [WriteOnly] implies [Truncate] unless it is combined with
    [ReadOnly] or [Append]. *)
Definition truncates (mode : Z) : bool :=
  has_flag mode Truncate
  || (has_flag mode WriteOnly
      && negb (has_flag mode ReadOnly) && negb (has_flag mode Append)).

Definition writable (mode : Z) : bool :=
  has_flag mode WriteOnly || has_flag mode Append.

(** *** The world the window acts on *)

(** An open [QFile]. *)
Record Handle : Type := mkHandle {
  h_name : QString;
  h_mode : Z;
  h_pos : nat
}.

Inductive Event : Type :=
| FileOpen (name : QString) (mode : Z) (ok : bool)
| FileWrite (name : QString) (data : QString)
| FileClose (name : QString)
| RconSend (command : QByteArray)
| QuerySend (command : QByteArray)
| MoveCursorEnd
| InsertHtml (html : QString)
| RestoreCursor
| OpenUrl (url : QString)
| MessageBoxCritical (text : QString)
| TimerStart (interval : Z)
| SetCompleter (commands : list QString)
| SingleShot (msec : Z).

Record World : Type := mkWorld {
  clock : nat -> QDateTime;    (* successive readings of the system clock *)
  ticks : nat;                 (* readings taken so far *)
  files : gmap string string;  (* contents of the existing files *)
  denied : gset string;        (* paths the system refuses to open *)
  handles : list QString;      (* files currently held open *)
  trace : list Event           (* calls made so far, oldest first *)
}.

(** The state monad of the effects. *)
Definition M (A : Type) : Type := World -> A * World.

#[export] Instance M_ret : MRet M := fun A a w => (a, w).
#[export] Instance M_bind : MBind M :=
  fun A B f m w => let (a, w') := m w in f a w'.

Definition emit (e : Event) : M unit := fun w =>
  (tt, mkWorld (clock w) (ticks w) (files w) (denied w) (handles w)
         (trace w ++ [e])).

(** [QDateTime::currentDateTime]. *)
Definition currentDateTime : M QDateTime := fun w =>
  (clock w (ticks w),
   mkWorld (clock w) (S (ticks w)) (files w) (denied w) (handles w) (trace w)).

Definition set_file (name : QString) (content : string) : M unit := fun w =>
  (tt, mkWorld (clock w) (ticks w) (<[name := content]> (files w)) (denied w)
         (handles w) (trace w)).

Definition set_handles (hs : list QString) : M unit := fun w =>
  (tt, mkWorld (clock w) (ticks w) (files w) (denied w) hs (trace w)).

(** Removes the first occurrence of [name]. *)
Fixpoint release (name : QString) (hs : list QString) : list QString :=
  match hs with
  | [] => []
  | h :: hs' => if String.eqb h name then hs' else h :: release name hs'
  end.

(** [QFile::open]: fails on a refused path, and on a missing file that
    is not opened for writing; creates a missing file opened for
    writing; empties the file when the mode truncates. *)
Definition QFile_open (name : QString) (mode : Z) : M (option Handle) := fun w =>
  if bool_decide (name ∈ denied w) then (emit (FileOpen name mode false) ;; mret None) w
  else
    match files w !! name with
    | None =>
        if writable mode then
          (emit (FileOpen name mode true) ;;
           set_file name "" ;;
           set_handles (name :: handles w) ;;
           mret (Some (mkHandle name mode 0))) w
        else (emit (FileOpen name mode false) ;; mret None) w
    | Some content =>
        (emit (FileOpen name mode true) ;;
         (if truncates mode then set_file name "" else mret tt) ;;
         set_handles (name :: handles w) ;;
         mret (Some (mkHandle name mode 0))) w
    end.

(** What writing [data] at offset [pos] leaves in a file. *)
Definition overwrite (content : string) (pos : nat) (data : string) : string :=
  String.substring 0 pos content +:+ data
  +:+ String.substring (pos + String.length data)
        (String.length content - (pos + String.length data)) content.

(** [QTextStream(&file) << data], flushed when the stream goes out of
    scope: in [Append] mode the data goes to the end of the file
    whatever the position. *)
Definition QTextStream_write (h : Handle) (data : QString) : M Handle := fun w =>
  let content := default "" (files w !! h_name h) in
  let content' :=
    if has_flag (h_mode h) Append then content +:+ data
    else overwrite content (h_pos h) data in
  (emit (FileWrite (h_name h) data) ;;
   set_file (h_name h) content' ;;
   mret (mkHandle (h_name h) (h_mode h) (h_pos h + String.length data))) w.

(** [QFile::~QFile] of an open file. *)
Definition QFile_close (h : Handle) : M unit := fun w =>
  (emit (FileClose (h_name h)) ;;
   set_handles (release (h_name h) (handles w))) w.

End Qt.

(** ** Out-of-band framing *)

Module Framing.
Import Qt.

Inductive FrameError : Type := MalformedFrame.

Inductive result (A : Type) : Type :=
| Ok (a : A)
| Err (e : FrameError).
Arguments Ok {A} a.
Arguments Err {A} e.

(** The four bytes [0xFF 0xFF 0xFF 0xFF] that open every datagram. *)
Definition marker : QByteArray := [Byte.xff; Byte.xff; Byte.xff; Byte.xff].

Definition bytes_eqb (a b : QByteArray) : bool :=
  bool_decide (map Byte.to_N a = map Byte.to_N b).

(** Modelled from the spec: [Framing.frame], the sending half of the
    transport classes (their sources are not among the files of the
    window); it prepends the 4-byte out-of-band marker to the payload. *)
Definition frame (payload : QByteArray) : QByteArray := marker ++ payload.

(** Modelled from the spec: [Framing.unframe], the receiving half of the
    transport classes (not among the files of the window); it fails with
    [MalformedFrame] when the datagram is shorter than 4 bytes or the
    marker mismatches, and returns the bytes after the marker otherwise. *)
Definition unframe (datagram : QByteArray) : result QByteArray :=
  if (length datagram <? 4)%nat then Err MalformedFrame
  else if bytes_eqb (take 4 datagram) marker then Ok (drop 4 datagram)
  else Err MalformedFrame.

End Framing.

(** ** The server description and the two UDP clients *)

Module Net.
Import Qt.

(** Modelled from the spec: class [Server] ([server.h] is not among the
    files of the window).  The window reads [getIp] and [getPort]; the
    rcon password travels with the server into the [Rcon] client. *)
Record Server : Type := mkServer {
  getIp : QString;
  getPort : Z;
  getPassword : QString
}.

(** [new Rcon(std::move(server))]. *)
Record Rcon : Type := mkRcon { rcon_server : Server }.

(** [new Query(server.getIp(), server.getPort())]. *)
Record Query : Type := mkQuery { query_ip : QString; query_port : Z }.

(** [Rcon::send] and [Query::send] as seen from the window: a call on the
    client object, recorded with the bytes the window passes. *)
Definition Rcon_send (self : Rcon) (command : QByteArray) : M unit :=
  emit (RconSend command).

Definition Query_send (self : Query) (command : QByteArray) : M unit :=
  emit (QuerySend command).

(** Modelled from the spec: the datagram [Rcon::send] puts on the wire
    ([rcon.cpp] is not among the files of the window): the out-of-band
    marker, then [rcon <password> <command>]. *)
Definition Rcon_datagram (self : Rcon) (command : QByteArray) : QByteArray :=
  Framing.frame (literal "rcon " ++ literal (getPassword (rcon_server self))
                 ++ literal " " ++ command).

End Net.

(** ** The completer of the command box *)

Module Completion.
Import Qt.

Definition autoCompletionFileName : QString := "commands.txt".

(** [QList<QString>::contains] *)
Definition contains (l : list QString) (x : QString) : bool :=
  existsb (String.eqb x) l.

(** One turn of the loop of [loadAutoCompletionCommands]: a line is kept
    when it is not empty and not yet in the list. *)
Definition addCommand (autoCompletionCommands : list QString) (command : QString)
  : list QString :=
  if negb (String.eqb command "") && negb (contains autoCompletionCommands command)
  then autoCompletionCommands ++ [command]
  else autoCompletionCommands.

(** The whole loop, over the lines [readLine] gives until [atEnd]. *)
Definition collect (lines : list QString) : list QString :=
  fold_left addCommand lines [].

(** The content of a file, empty when there is none. *)
Definition contentOf (name : QString) : M string := fun w =>
  (default "" (files w !! name), w).

Section Load.
(** The lines [QTextStream::readLine] cuts a file content into. *)
Variable readLines : string -> list QString.

(** [CommandWindow::loadAutoCompletionCommands]; the result is the list
    the completer is built from.  The result of [open] is not tested: on
    a file that is not open the stream is at its end at once. *)
Definition loadAutoCompletionCommands : M (list QString) :=
  file ← QFile_open autoCompletionFileName ReadOnly;
  match file with
  | Some h =>
      content ← contentOf (h_name h);
      QFile_close h ;;
      mret (collect (readLines content))
  | None => mret (collect [])
  end.

End Load.

(** A line reader for the examples: cuts after every line feed. *)
Fixpoint cutLines (cur : string) (s : string) : list QString :=
  match s with
  | EmptyString => if String.eqb cur "" then [] else [cur]
  | String c rest =>
      if Ascii.eqb c (Ascii.ascii_of_nat 10) then cur :: cutLines "" rest
      else cutLines (cur +:+ String c EmptyString) rest
  end.

End Completion.

(** ** Library and parser functions the window calls but does not define *)

Module Import Lib.
Import Qt.

(** Modelled from the spec: class [Output] ([parser/outputparser.h] is not
    among the files of the window): one logical line of console output,
    seen through the two methods the window calls. *)
Record Output : Type := mkOutput {
  getText : QString;
  toHtml : QString
}.

(** The text functions of Qt (formatting, reading lines) and the console
    parser, taken as parameters of the development. *)
Class TextLib : Type := {
  (** [QDateTime::toString()] *)
  QDateTime_toString : QDateTime -> QString;
  (** [QString::arg(const QString &)] *)
  QString_arg : QString -> QString -> QString;
  (** [QString::arg(int)] *)
  QString_arg_int : QString -> Z -> QString;
  (** [OutputParser::parse] *)
  OutputParser_parse : QByteArray -> list Output;
  (** [QTextStream::readLine] until [atEnd], on the content of a file *)
  QTextStream_readLines : string -> list QString
}.

End Lib.

(** ** The command window *)

Module CommandWindow.
Import Qt Net.

Section Window.
Context `{TextLib} `{TimeZone}.

Definition logFileNameFormat : QString := "log_%1_%2.log".

(** The fields of the window the modelled methods read or write.  The
    widgets, the player table and the completer are presentation only. *)
Record t : Type := mk {
  lastCommand : QDateTime;
  logFileName : QString;
  preferences : QSettings;
  status : Query;
  rcon : Rcon;
  statusInterval : Z;
  disconnect : bool
}.

Definition set_lastCommand (self : t) (now : QDateTime) : t :=
  mk now (logFileName self) (preferences self) (status self) (rcon self)
     (statusInterval self) (disconnect self).

(** [CommandWindow::CommandWindow]; [settings] is what [QSettings] loaded
    from [preferences.ini].  After the fields are set the status timer is
    started with its interval, the completer is loaded from its file and
    the slot [on_actionStatus_triggered] is scheduled 250 ms later. *)
Definition new (server : Server) (settings : QSettings) : M t :=
  now ← currentDateTime;
  let self := {|
    lastCommand := addDays now (-1);
    logFileName :=
      QString_arg_int (QString_arg logFileNameFormat (getIp server)) (getPort server);
    preferences := settings;
    status := mkQuery (getIp server) (getPort server);
    rcon := mkRcon server;
    statusInterval :=
      QVariant_toInt (value settings "getstatus_interval" (QVInt 2000));
    disconnect := false
  |} in
  emit (TimerStart (statusInterval self)) ;;
  autoCompletionCommands ←
    Completion.loadAutoCompletionCommands QTextStream_readLines;
  emit (SetCompleter autoCompletionCommands) ;;
  emit (SingleShot 250) ;;
  mret self.

(** [CommandWindow::writeToLog] *)
Definition writeToLog (self : t) (line : QString) : M unit :=
  if QVariant_eq_literal (value (preferences self) "logging_enabled" (QVInt 1)) "0"
  then mret tt
  else
    log ← QFile_open (logFileName self) (Z.lor WriteOnly Append);
    match log with
    | Some h => out ← QTextStream_write h line; QFile_close out
    | None => mret tt
    end.

(** [CommandWindow::sendCommand] *)
Definition sendCommand (self : t) (command : QByteArray) : M t :=
  now ← currentDateTime;
  if msecsTo (lastCommand self) now <? 1000 then
    mret self (* Prevent from spamming the server *)
  else
    let self := set_lastCommand self now in
    emit MoveCursorEnd ;;
    stamp ← currentDateTime;
    let output := QDateTime_toString stamp +:+ " > " +:+ fromUtf8 command in
    writeToLog self (output +:+ LF +:+ LF) ;;
    emit (InsertHtml (output +:+ "<br /><br />")) ;;
    Rcon_send (rcon self) command ;;
    mret self.

(** [CommandWindow::requestServerStatus] *)
Definition requestServerStatus (self : t) : M t :=
  Query_send (status self) (literal "getstatus") ;;
  mret self.

(** [CommandWindow::on_sendButton_clicked]; [currentText] is the text of
    the command box, already encoded by [toUtf8]. *)
Definition on_sendButton_clicked (self : t) (currentText : QByteArray) : M t :=
  sendCommand self currentText.

(** [CommandWindow::on_actionStatus_triggered] *)
Definition on_actionStatus_triggered (self : t) : M t :=
  sendCommand self (literal "status").

(** [CommandWindow::on_actionServer_info_triggered] *)
Definition on_actionServer_info_triggered (self : t) : M t :=
  sendCommand self (literal "serverinfo").

(** The loop of [onReceiveRcon] over the parsed lines. *)
Fixpoint logLines (self : t) (lines : list Output) : M unit :=
  match lines with
  | [] => mret tt
  | line :: rest =>
      writeToLog self (getText line) ;;
      emit (InsertHtml (toHtml line)) ;;
      logLines self rest
  end.

(** [CommandWindow::onReceiveRcon] *)
Definition onReceiveRcon (self : t) (output : QByteArray) : M t :=
  let parsedOutput := OutputParser_parse output in
  emit MoveCursorEnd ;;
  logLines self parsedOutput ;;
  emit RestoreCursor ;;
  mret self.

(** [CommandWindow::openFileAsDefault]; [ctrl] is the state of the Control
    key and [currentPath] the working directory of the application. *)
Definition openFileAsDefault (self : t) (ctrl : bool) (currentPath fileName : QString)
  : M unit :=
  if ctrl then emit (OpenUrl currentPath)
  else fun w =>
    if bool_decide (is_Some (files w !! fileName)) then emit (OpenUrl fileName) w
    else emit (MessageBoxCritical (QString_arg "'%1' does not exist." fileName)) w.

(** [CommandWindow::on_actionView_log_triggered] *)
Definition on_actionView_log_triggered (self : t) (ctrl : bool) (currentPath : QString)
  : M t :=
  openFileAsDefault self ctrl currentPath (logFileName self) ;;
  mret self.

(** The slots through which the event loop enters the window. *)
Inductive Call : Type :=
| SendButton (currentText : QByteArray)
| ActionStatus
| ActionServerInfo
| StatusTimer
| ReceiveRcon (output : QByteArray)
| ActionViewLog (ctrl : bool) (currentPath : QString).

Definition dispatch (self : t) (c : Call) : M t :=
  match c with
  | SendButton text => on_sendButton_clicked self text
  | ActionStatus => on_actionStatus_triggered self
  | ActionServerInfo => on_actionServer_info_triggered self
  | StatusTimer => requestServerStatus self
  | ReceiveRcon output => onReceiveRcon self output
  | ActionViewLog ctrl dir => on_actionView_log_triggered self ctrl dir
  end.

(** A session: the slots called one after the other on the same window. *)
Fixpoint session (self : t) (calls : list Call) : M t :=
  match calls with
  | [] => mret self
  | c :: rest => self' ← dispatch self c; session self' rest
  end.

End Window.

(** The same window with another rcon password. *)
Definition with_password (self : t) (password : QString) : t :=
  mk (lastCommand self) (logFileName self) (preferences self) (status self)
     (mkRcon (mkServer (getIp (rcon_server (rcon self)))
                       (getPort (rcon_server (rcon self))) password))
     (statusInterval self) (disconnect self).

End CommandWindow.

(** ** Observations on the trace *)

Module Obs.
Import Qt.

(** The calls recorded between two worlds. *)
Definition new_events (w w' : World) : list Event :=
  drop (length (trace w)) (trace w').

(** The commands handed to the rcon client. *)
Definition rcon_sent (evs : list Event) : list QByteArray :=
  omap (fun e => match e with RconSend c => Some c | _ => None end) evs.

(** The requests handed to the status client. *)
Definition query_sent (evs : list Event) : list QByteArray :=
  omap (fun e => match e with QuerySend c => Some c | _ => None end) evs.

(** The texts written to files. *)
Definition log_writes (evs : list Event) : list QString :=
  omap (fun e => match e with FileWrite _ d => Some d | _ => None end) evs.

Definition is_file_event (e : Event) : bool :=
  match e with
  | FileOpen _ _ _ | FileWrite _ _ | FileClose _ => true
  | _ => false
  end.

(** The calls that touch the file system. *)
Definition file_events (evs : list Event) : list Event :=
  List.filter is_file_event evs.

(** Whether a command was handed to the rcon client. *)
Definition was_sent (evs : list Event) : bool :=
  match rcon_sent evs with [] => false | _ :: _ => true end.

(** The errors shown to the user. *)
Definition errors_raised (evs : list Event) : list QString :=
  omap (fun e => match e with MessageBoxCritical m => Some m | _ => None end) evs.

(** What a call on the log file [name] may record: opening it for
    appending, writing to it and closing it. *)
Definition log_event_ok (name : QString) (e : Event) : Prop :=
  match e with
  | FileOpen n mode _ => n = name /\ mode = Z.lor WriteOnly Append
  | FileWrite n _ | FileClose n => n = name
  | _ => True
  end.

(** [w'] is [w] after one append of [line] to the file [name] went
    ahead: the file was opened with [WriteOnly | Append]; when the system
    refused, that attempt is all there is and the files are as before;
    otherwise [line] was written, the file was closed, and the file holds
    its former content (none if it did not exist) followed by [line]. *)
Definition append_outcome (name line : QString) (w w' : World) : Prop :=
  if bool_decide (name ∈ denied w)
  then new_events w w' = [FileOpen name (Z.lor WriteOnly Append) false]
       /\ files w' = files w
  else new_events w w' = [FileOpen name (Z.lor WriteOnly Append) true;
                          FileWrite name line;
                          FileClose name]
       /\ files w' = <[name := default "" (files w !! name) +:+ line]> (files w).

(** [w'] is [w] after calls that only ever appended to files: no handle
    is left open, every file that existed still exists with its old
    content as a prefix, and the file system was reached through the log
    file alone. *)
Definition appends_only (name : QString) (w w' : World) : Prop :=
  handles w' = handles w
  /\ denied w' = denied w
  /\ (forall f c, files w !! f = Some c ->
        exists suffix, files w' !! f = Some (c +:+ suffix))
  /\ exists evs, trace w' = trace w ++ evs /\ Forall (log_event_ok name) evs.

End Obs.

(** ** The rate limiter of the specification *)

Module CommandGate.

Record RateWindow : Type := mkRateWindow { lastAcceptedAt : Z }.

Definition minInterval : Z := 1000.

(** The gate as the specification words it: accept and move
    [lastAcceptedAt] to [now] when [now - lastAcceptedAt >= minInterval],
    reject and leave the window as it is otherwise.  It is the reference
    the gate inlined in [CommandWindow::sendCommand] is compared with. *)
Definition tryAccept (rw : RateWindow) (now : Z) : bool * RateWindow :=
  if now - lastAcceptedAt rw >=? minInterval then (true, mkRateWindow now)
  else (false, rw).

End CommandGate.

(** ** An instance of the text functions, to run the model *)

Module Reference.
Import Qt.

(** Replaces every occurrence of [pat] in [s] by [rep]; [skip] counts the
    characters of a match still to be dropped. *)
Fixpoint subst (pat rep : string) (skip : nat) (s : string) : string :=
  match s with
  | EmptyString => EmptyString
  | String c s' =>
      match skip with
      | S k => subst pat rep k s'
      | O =>
          if String.prefix pat s
          then rep +:+ subst pat rep (String.length pat - 1) s'
          else String c (subst pat rep 0 s')
      end
  end.

Definition occurs (pat s : string) : bool :=
  match String.index 0 pat s with Some _ => true | None => false end.

(** The place marker with the lowest number among [%1] .. [%9]. *)
Definition lowest_marker (s : string) : option string :=
  List.find (fun m => occurs m s)
    ["%1"; "%2"; "%3"; "%4"; "%5"; "%6"; "%7"; "%8"; "%9"]%string.

(** [QString::arg] for formats with one-digit place markers. *)
Definition arg (fmt a : string) : string :=
  match lowest_marker fmt with
  | Some m => subst m a 0 fmt
  | None => fmt
  end.

(** One output line per payload, without colour markup. *)
Definition parse (payload : QByteArray) : list Lib.Output :=
  [Lib.mkOutput (fromUtf8 payload) (fromUtf8 payload)].

#[export] Instance textLib : Lib.TextLib := {|
  Lib.QDateTime_toString := fun t => pretty t;
  Lib.QString_arg := arg;
  Lib.QString_arg_int := fun fmt n => arg fmt (pretty n);
  Lib.OutputParser_parse := parse;
  Lib.QTextStream_readLines := Completion.cutLines ""
|}.

(** A zone that keeps UTC all year. *)
Definition utc : TimeZone := {|
  offsetFromUtc := fun _ => 0;
  offsetFromLocal := fun _ => 0
|}.



End Reference.

(** ** A concrete session, to evaluate the statements on *)

Module Demo.
Import Qt Net CommandWindow.

Definition server : Server := mkServer "10.0.0.1" 28960 "hunter2".

(** A world with an empty file system whose clock gives [readings] in
    turn, and 0 afterwards. *)
Definition world (readings : list Z) : World :=
  mkWorld (fun n => nth n readings 0) 0 ∅ ∅ [] [].

(** The same world with the log file of [server] refused. *)
Definition locked (readings : list Z) : World :=
  mkWorld (fun n => nth n readings 0) 0 ∅ {["log_10.0.0.1_28960.log"]} [] [].

(** The window built at time 0 with the given settings. *)
Definition window (settings : QSettings) : t :=
  (@new Reference.textLib Reference.utc server settings (world [0])).1.

Definition logging_off : QSettings := {["logging_enabled" := QVString "0"]}.

End Demo.

(** ** The entry point *)

Module Main.
Import Qt.

(** What [main] does with the server window before the event loop. *)
Inductive Startup : Type :=
| ConnectToServer (address : QString)
| ShowWindow.

(** [main] of [src/main.cpp], from the argument list on.
    [connectToServer] is the method of the server window, which tells
    whether the connection was made.  [QStringList::at] is partial: the
    result is [None] if an index were out of range. *)
Definition main (arguments : list QString) (connectToServer : QString -> bool)
  : option (list Startup) :=
  if (3 <=? length arguments)%nat then
    a1 ← arguments !! 1%nat;
    if String.eqb a1 "--connect" then
      a2 ← arguments !! 2%nat;
      let connectedToServer := connectToServer a2 in
      Some (ConnectToServer a2 :: if connectedToServer then [] else [ShowWindow])
    else Some [ShowWindow]
  else Some [ShowWindow].

End Main.

(** ** Further observations on the trace *)

Module Shown.
Import Qt CommandWindow.

(** The markup inserted into the output widget. *)
Definition html_inserted (evs : list Event) : list QString :=
  omap (fun e => match e with InsertHtml h => Some h | _ => None end) evs.

(** The locations handed to the desktop. *)
Definition urls_opened (evs : list Event) : list QString :=
  omap (fun e => match e with OpenUrl u => Some u | _ => None end) evs.

(** The command a slot passes to [sendCommand], if it is one of the
    three that do. *)
Definition command_of (c : Call) : option QByteArray :=
  match c with
  | SendButton text => Some text
  | ActionStatus => Some (literal "status")
  | ActionServerInfo => Some (literal "serverinfo")
  | _ => None
  end.

(** The texts one after the other, with nothing in between. *)
Definition joined (texts : list QString) : QString :=
  foldr String.append "" texts.

End Shown.

(** ** Properties *)

Import Qt Net Lib CommandWindow Obs.

(** *** Arithmetic of the clock *)

Lemma wrap64_exact (z : Z) : - 2 ^ 63 <= z < 2 ^ 63 -> wrap64 z = z.
Proof.
  intros Hz. unfold wrap64.
  rewrite Z.mod_small by lia. lia.
Qed.

Lemma msecsTo_exact (a b : QDateTime) :
  - 2 ^ 63 <= b - a < 2 ^ 63 -> msecsTo a b = b - a.
Proof. apply wrap64_exact. Qed.

Lemma msecsTo_clock (a b : QDateTime) :
  clock_range a -> clock_range b -> msecsTo a b = b - a.
Proof.
  unfold clock_range. intros Ha Hb. apply msecsTo_exact.
  change (2 ^ 63) with (4 * 2 ^ 61). lia.
Qed.

(** *** The three outcomes of [writeToLog] *)

(** Runs the monadic plumbing of a goal. *)
Ltac run_m :=
  repeat (unfold mbind, M_bind, mret, M_ret, emit, set_file, set_handles,
            QTextStream_write, QFile_close, currentDateTime,
            Rcon_send, Query_send; cbn).

Lemma world_eta (w : World) :
  mkWorld (clock w) (ticks w) (files w) (denied w) (handles w) (trace w) = w.
Proof. by destruct w. Qed.

Lemma release_head (name : QString) (hs : list QString) :
  release name (name :: hs) = hs.
Proof. simpl. by rewrite String.eqb_refl. Qed.

Lemma append_mode_keeps : truncates (Z.lor WriteOnly Append) = false.
Proof. reflexivity. Qed.

Lemma append_mode_appends : has_flag (Z.lor WriteOnly Append) Append = true.
Proof. reflexivity. Qed.

Lemma append_mode_writable : writable (Z.lor WriteOnly Append) = true.
Proof. reflexivity. Qed.

Lemma writeToLog_off (self : t) (line : QString) (w : World) :
  QVariant_eq_literal (value (preferences self) "logging_enabled" (QVInt 1)) "0" = true ->
  writeToLog self line w = (tt, w).
Proof. intros Hoff. unfold writeToLog. by rewrite Hoff. Qed.

Lemma writeToLog_denied (self : t) (line : QString) (w : World) :
  QVariant_eq_literal (value (preferences self) "logging_enabled" (QVInt 1)) "0" = false ->
  logFileName self ∈ denied w ->
  writeToLog self line w =
    (tt, mkWorld (clock w) (ticks w) (files w) (denied w) (handles w)
           (trace w ++ [FileOpen (logFileName self) (Z.lor WriteOnly Append) false])).
Proof.
  intros Hon Hden. unfold writeToLog. rewrite Hon.
  unfold mbind, M_bind, QFile_open.
  rewrite bool_decide_eq_true_2 by done. reflexivity.
Qed.

Lemma writeToLog_ok (self : t) (line : QString) (w : World) :
  QVariant_eq_literal (value (preferences self) "logging_enabled" (QVInt 1)) "0" = false ->
  logFileName self ∉ denied w ->
  writeToLog self line w =
    (tt, mkWorld (clock w) (ticks w)
           (<[logFileName self := default "" (files w !! logFileName self) +:+ line]>
              (files w))
           (denied w) (handles w)
           (trace w ++ [FileOpen (logFileName self) (Z.lor WriteOnly Append) true;
                        FileWrite (logFileName self) line;
                        FileClose (logFileName self)])).
Proof.
  intros Hon Hden. unfold writeToLog. rewrite Hon.
  unfold mbind, M_bind, QFile_open.
  rewrite bool_decide_eq_false_2 by done.
  destruct (files w !! logFileName self) as [content|] eqn:Hfile.
  - run_m. rewrite append_mode_keeps. run_m.
    rewrite append_mode_appends, Hfile, String.eqb_refl. cbn.
    by rewrite <- !app_assoc.
  - rewrite append_mode_writable. run_m.
    rewrite append_mode_appends, lookup_insert_eq, insert_insert_eq, String.eqb_refl.
    cbn. by rewrite <- !app_assoc.
Qed.

(** *** The two outcomes of [sendCommand] *)

Lemma new_events_app (w w' : World) (evs : list Event) :
  trace w' = trace w ++ evs -> new_events w w' = evs.
Proof. unfold new_events. intros ->. by rewrite drop_app_length. Qed.

Lemma new_events_same (w w' : World) :
  trace w' = trace w -> new_events w w' = [].
Proof. unfold new_events. intros ->. by rewrite drop_all. Qed.

Section Send.
Context `{TextLib}.

Lemma sendCommand_reject (self : t) (command : QByteArray) (w : World) :
  (msecsTo (lastCommand self) (clock w (ticks w)) <? 1000) = true ->
  sendCommand self command w =
    (self, mkWorld (clock w) (S (ticks w)) (files w) (denied w) (handles w) (trace w)).
Proof. intros Hgate. unfold sendCommand. run_m. by rewrite Hgate. Qed.

Lemma sendCommand_accept (self : t) (command : QByteArray) (w : World) :
  (msecsTo (lastCommand self) (clock w (ticks w)) <? 1000) = false ->
  let self' := set_lastCommand self (clock w (ticks w)) in
  let output :=
    QDateTime_toString (clock w (S (ticks w))) +:+ " > " +:+ fromUtf8 command in
  let w1 := mkWorld (clock w) (S (S (ticks w))) (files w) (denied w) (handles w)
              (trace w ++ [MoveCursorEnd]) in
  let w2 := (writeToLog self' (output +:+ LF +:+ LF) w1).2 in
  sendCommand self command w =
    (self', mkWorld (clock w2) (ticks w2) (files w2) (denied w2) (handles w2)
              (trace w2 ++ [InsertHtml (output +:+ "<br /><br />"); RconSend command])).
Proof.
  intros Hgate. unfold sendCommand. run_m. rewrite Hgate. run_m.
  destruct (writeToLog _ _ _) as [[] w2]. cbn. by rewrite <- app_assoc.
Qed.

(** Whatever [writeToLog] does, it hands nothing to the rcon client,
    shows no error and extends the trace with calls on the log file. *)
Lemma writeToLog_trace (self : t) (line : QString) (w : World) :
  exists evs,
    trace (writeToLog self line w).2 = trace w ++ evs
    /\ rcon_sent evs = [] /\ errors_raised evs = []
    /\ Forall (log_event_ok (logFileName self)) evs.
Proof.
  destruct (QVariant_eq_literal
              (value (preferences self) "logging_enabled" (QVInt 1)) "0") eqn:Hflag.
  - rewrite writeToLog_off by done. exists []. cbn. by rewrite app_nil_r.
  - destruct (decide (logFileName self ∈ denied w)) as [Hden|Hden].
    + rewrite writeToLog_denied by done. eexists. cbn.
      split_and!; [reflexivity | done | done | by repeat constructor].
    + rewrite writeToLog_ok by done. eexists. cbn.
      split_and!; [reflexivity | done | done | by repeat constructor].
Qed.

(** An accepted call hands exactly its command to the rcon client. *)
Lemma sendCommand_accept_sent (self : t) (command : QByteArray) (w : World) :
  (msecsTo (lastCommand self) (clock w (ticks w)) <? 1000) = false ->
  rcon_sent (new_events w (sendCommand self command w).2) = [command]
  /\ errors_raised (new_events w (sendCommand self command w).2) = []
  /\ lastCommand (sendCommand self command w).1 = clock w (ticks w).
Proof.
  intros Hgate. rewrite sendCommand_accept by done. cbn.
  match goal with |- context [writeToLog ?s ?l ?w1] =>
    destruct (writeToLog_trace s l w1) as (evs & Htr & Hsent & Herr & _) end.
  rewrite Htr. cbn.
  erewrite new_events_app by (cbn; rewrite <- !app_assoc; reflexivity).
  unfold rcon_sent, errors_raised in *.
  rewrite !omap_app, Hsent, Herr. done.
Qed.

(** A rejected call changes nothing but the count of clock readings. *)
Lemma sendCommand_reject_silent (self : t) (command : QByteArray) (w : World) :
  (msecsTo (lastCommand self) (clock w (ticks w)) <? 1000) = true ->
  (sendCommand self command w).1 = self
  /\ new_events w (sendCommand self command w).2 = []
  /\ files (sendCommand self command w).2 = files w
  /\ handles (sendCommand self command w).2 = handles w.
Proof.
  intros Hgate. rewrite sendCommand_reject by done. cbn.
  repeat split. by apply new_events_same.
Qed.

End Send.

(** [writeToLog] neither reads the clock nor changes what may be opened. *)
Lemma writeToLog_clock (self : t) (line : QString) (w : World) :
  clock (writeToLog self line w).2 = clock w
  /\ ticks (writeToLog self line w).2 = ticks w
  /\ denied (writeToLog self line w).2 = denied w
  /\ handles (writeToLog self line w).2 = handles w.
Proof.
  destruct (QVariant_eq_literal
              (value (preferences self) "logging_enabled" (QVInt 1)) "0") eqn:Hflag.
  - by rewrite writeToLog_off.
  - destruct (decide (logFileName self ∈ denied w)) as [Hden|Hden].
    + by rewrite writeToLog_denied.
    + by rewrite writeToLog_ok.
Qed.

(** An accepted call reads the clock twice. *)
Lemma sendCommand_accept_clock `{TextLib} (self : t) (command : QByteArray) (w : World) :
  (msecsTo (lastCommand self) (clock w (ticks w)) <? 1000) = false ->
  clock (sendCommand self command w).2 = clock w
  /\ ticks (sendCommand self command w).2 = S (S (ticks w))
  /\ denied (sendCommand self command w).2 = denied w
  /\ handles (sendCommand self command w).2 = handles w.
Proof.
  intros Hgate. rewrite sendCommand_accept by done. cbn.
  match goal with |- context [writeToLog ?s ?l ?w1] =>
    destruct (writeToLog_clock s l w1) as (-> & -> & -> & ->) end.
  done.
Qed.

(** *** The rate limiter *)

(** Both verdicts of the gate, with the clock difference taken in [Z]. *)
Lemma sendCommand_step `{TextLib} (self : t) (command : QByteArray) (w : World) :
  let now := clock w (ticks w) in
  let r := sendCommand self command w in
  clock_range (lastCommand self) -> clock_range now ->
  (now - lastCommand self >= 1000 ->
     rcon_sent (new_events w r.2) = [command]
     /\ errors_raised (new_events w r.2) = []
     /\ lastCommand r.1 = now
     /\ clock r.2 = clock w /\ ticks r.2 = S (S (ticks w)))
  /\ (now - lastCommand self < 1000 ->
     r = (self, mkWorld (clock w) (S (ticks w)) (files w) (denied w) (handles w)
                  (trace w))).
Proof.
  intros now r Hlast Hnow.
  pose proof (msecsTo_clock _ _ Hlast Hnow) as Hms. fold now in Hms.
  split; intros Hcmp.
  - assert (Hgate : (msecsTo (lastCommand self) (clock w (ticks w)) <? 1000) = false).
    { apply Z.ltb_ge. fold now. lia. }
    destruct (sendCommand_accept_sent self command w Hgate) as (? & ? & ?).
    destruct (sendCommand_accept_clock self command w Hgate) as (? & ? & _).
    done.
  - unfold r. apply sendCommand_reject. apply Z.ltb_lt. fold now. lia.
Qed.

(** C1.  A call to [sendCommand] whose clock reading is [now] hands its
    command to the rcon client exactly when [now - lastCommand >= 1000],
    and then sets [lastCommand] to [now]; otherwise it sends nothing and
    leaves the window as it was: verdict and window are those of
    [CommandGate.tryAccept].  The statement holds in every state, hence
    at every call of every sequence; in particular, from a window that
    has already elapsed, calls at 0, 500 and 1200 ms are accepted,
    rejected and accepted. *)
Theorem sendCommand_gate `{TextLib} :
  (forall (self : t) (command : QByteArray) (w : World),
     let now := clock w (ticks w) in
     let r := sendCommand self command w in
     clock_range (lastCommand self) -> clock_range now ->
     (rcon_sent (new_events w r.2) = [command] <-> now - lastCommand self >= 1000)
     /\ (rcon_sent (new_events w r.2) = [] <-> now - lastCommand self < 1000)
     /\ (now - lastCommand self >= 1000 -> lastCommand r.1 = now)
     /\ (now - lastCommand self < 1000 -> r.1 = self)
     /\ (was_sent (new_events w r.2), CommandGate.mkRateWindow (lastCommand r.1))
        = CommandGate.tryAccept (CommandGate.mkRateWindow (lastCommand self)) now)
  /\ (forall (self : t) (c1 c2 c3 : QByteArray) (w : World),
       clock_range (lastCommand self) -> lastCommand self <= -1000 ->
       clock w (ticks w) = 0 ->
       clock w (ticks w + 2)%nat = 500 ->
       clock w (ticks w + 3)%nat = 1200 ->
       let r1 := sendCommand self c1 w in
       let r2 := sendCommand r1.1 c2 r1.2 in
       let r3 := sendCommand r2.1 c3 r2.2 in
       rcon_sent (new_events w r1.2) = [c1]
       /\ rcon_sent (new_events r1.2 r2.2) = []
       /\ rcon_sent (new_events r2.2 r3.2) = [c3]
       /\ lastCommand r1.1 = 0 /\ lastCommand r2.1 = 0 /\ lastCommand r3.1 = 1200).
Proof.
  split.
  - intros self command w now r Hlast Hnow.
    destruct (sendCommand_step self command w Hlast Hnow) as [Hacc Hrej].
    fold now in Hacc, Hrej. fold r in Hacc, Hrej.
    unfold CommandGate.tryAccept, CommandGate.minInterval. cbn.
    destruct (Z.geb_spec (now - lastCommand self) 1000) as [Hge|Hlt].
    + destruct Hacc as (Hsent & _ & Hset & _); [lia|].
      unfold was_sent. rewrite Hsent, Hset.
      split_and!; try done; try lia; (split; intros; first [done | lia]).
    + rewrite (Hrej Hlt). cbn.
      rewrite new_events_same by done. cbn.
      split_and!; try done; try lia; (split; intros; first [done | lia]).
  - intros self c1 c2 c3 w Hlast Helapsed H0 H500 H1200 r1 r2 r3.
    assert (Hr0 : clock_range 0) by (unfold clock_range; lia).
    assert (Hr500 : clock_range 500) by (unfold clock_range; lia).
    assert (Hr1200 : clock_range 1200) by (unfold clock_range; lia).
    (* first call, at 0 *)
    destruct (sendCommand_step self c1 w) as [Hacc1 _]; [done | by rewrite H0 |].
    destruct Hacc1 as (Hsent1 & _ & Hset1 & Hclk1 & Htk1); [rewrite H0; lia|].
    fold r1 in Hsent1, Hset1, Hclk1, Htk1. rewrite H0 in Hset1.
    (* second call, at 500 *)
    assert (Hnow2 : clock r1.2 (ticks r1.2) = 500).
    { rewrite Hclk1, Htk1. by replace (S (S (ticks w))) with (ticks w + 2)%nat by lia. }
    destruct (sendCommand_step r1.1 c2 r1.2) as [_ Hrej2];
      [by rewrite Hset1 | by rewrite Hnow2 |].
    rewrite Hnow2, Hset1 in Hrej2. specialize (Hrej2 ltac:(lia)).
    fold r2 in Hrej2.
    (* third call, at 1200 *)
    assert (Hnow3 : clock r2.2 (ticks r2.2) = 1200).
    { rewrite Hrej2. cbn. rewrite Hclk1, Htk1.
      by replace (S (S (S (ticks w)))) with (ticks w + 3)%nat by lia. }
    assert (Hset2 : lastCommand r2.1 = 0) by (by rewrite Hrej2).
    destruct (sendCommand_step r2.1 c3 r2.2) as [Hacc3 _];
      [by rewrite Hset2 | by rewrite Hnow3 |].
    rewrite Hnow3, Hset2 in Hacc3.
    destruct Hacc3 as (Hsent3 & _ & Hset3 & _); [lia|].
    fold r3 in Hsent3, Hset3.
    split_and!; try done.
    rewrite Hrej2. by rewrite new_events_same.
Qed.

(** Witness of C1: the window built at time 0 has an elapsed interval;
    calls at 0, 500 and 1200 ms. *)
Lemma sendCommand_gate_witness :
  let self := Demo.window ∅ in
  let w := Demo.world [0; 0; 500; 1200; 1200] in
  let r1 := @sendCommand Reference.textLib self (literal "status") w in
  let r2 := @sendCommand Reference.textLib r1.1 (literal "status") r1.2 in
  let r3 := @sendCommand Reference.textLib r2.1 (literal "serverinfo") r2.2 in
  (clock_range (lastCommand self) /\ clock_range (clock w (ticks w)))
  /\ (rcon_sent (new_events w r1.2) = [literal "status"]
      <-> clock w (ticks w) - lastCommand self >= 1000)
  /\ rcon_sent (new_events w r1.2) = [literal "status"]
  /\ rcon_sent (new_events r1.2 r2.2) = []
  /\ rcon_sent (new_events r2.2 r3.2) = [literal "serverinfo"].
Proof.
  intros self w r1 r2 r3.
  assert (Hlast : clock_range (lastCommand self))
    by (unfold clock_range; vm_compute; split; [discriminate | reflexivity]).
  assert (Hnow : clock_range (clock w (ticks w)))
    by (unfold clock_range; vm_compute; split; [discriminate | reflexivity]).
  split; [by split|].
  split.
  - exact (proj1 (proj1 (@sendCommand_gate Reference.textLib)
                    self (literal "status") w Hlast Hnow)).
  - pose proof (proj2 (@sendCommand_gate Reference.textLib)
                  self (literal "status") (literal "status") (literal "serverinfo") w
                  Hlast ltac:(vm_compute; discriminate)
                  eq_refl eq_refl eq_refl) as Hrun.
    cbv zeta in Hrun. fold r1 r2 r3 in Hrun.
    destruct Hrun as (Hrun1 & Hrun2 & Hrun3 & _).
    split; [exact Hrun1|]. split; [exact Hrun2 | exact Hrun3].
Defined.

(** C2.  A call rejected by the rate limiter returns normally and leaves
    everything as it was: the window (so [lastCommand] keeps its value), the
    files and the open handles; it records no call at all, so nothing is
    written to the transcript, nothing is handed to the rcon client and no
    error is shown. *)
Theorem rejected_send_is_silent `{TextLib}
    (self : t) (command : QByteArray) (w : World) :
  let now := clock w (ticks w) in
  let r := sendCommand self command w in
  clock_range (lastCommand self) -> clock_range now ->
  now - lastCommand self < 1000 ->
  r.1 = self
  /\ lastCommand r.1 = lastCommand self
  /\ trace r.2 = trace w
  /\ new_events w r.2 = []
  /\ files r.2 = files w
  /\ handles r.2 = handles w
  /\ log_writes (new_events w r.2) = []
  /\ file_events (new_events w r.2) = []
  /\ rcon_sent (new_events w r.2) = []
  /\ errors_raised (new_events w r.2) = [].
Proof.
  intros now r Hlast Hnow Hsoon.
  destruct (sendCommand_step self command w Hlast Hnow) as [_ Hrej].
  fold r in Hrej. rewrite (Hrej Hsoon). cbn.
  rewrite new_events_same by done. done.
Qed.

(** Witness of C2: a second call 500 ms after an accepted one. *)
Lemma rejected_send_is_silent_witness :
  let self := set_lastCommand (Demo.window ∅) 0 in
  let w := Demo.world [500] in
  let r := @sendCommand Reference.textLib self (literal "status") w in
  clock w (ticks w) - lastCommand self < 1000
  /\ r.1 = self /\ trace r.2 = trace w /\ files r.2 = files w.
Proof.
  intros self w r.
  assert (Hlast : clock_range (lastCommand self))
    by (unfold clock_range; vm_compute; split; [discriminate | reflexivity]).
  assert (Hnow : clock_range (clock w (ticks w)))
    by (unfold clock_range; vm_compute; split; [discriminate | reflexivity]).
  assert (Hsoon : clock w (ticks w) - lastCommand self < 1000) by reflexivity.
  split; [exact Hsoon|].
  pose proof (@rejected_send_is_silent Reference.textLib self (literal "status") w
                Hlast Hnow Hsoon) as Hsilent.
  cbv zeta in Hsilent. fold r in Hsilent.
  destruct Hsilent as (? & _ & ? & _ & ? & _). done.
Defined.

(** The window the constructor returns. *)
Lemma new_window `{TextLib} `{TimeZone}
    (server : Server) (settings : QSettings) (w : World) :
  (new server settings w).1
  = mk (addDays (clock w (ticks w)) (-1))
       (QString_arg_int (QString_arg logFileNameFormat (getIp server)) (getPort server))
       settings (mkQuery (getIp server) (getPort server)) (mkRcon server)
       (QVariant_toInt (value settings "getstatus_interval" (QVInt 2000))) false.
Proof.
  unfold new. unfold mbind, M_bind, currentDateTime, emit. cbn.
  by destruct (Completion.loadAutoCompletionCommands _ _) as [commands w1].
Qed.




(** *** Framing *)

Lemma to_N_inj (a b : Byte.byte) : Byte.to_N a = Byte.to_N b -> a = b.
Proof.
  intros Heq. apply (f_equal Byte.of_N) in Heq.
  rewrite !Byte.of_to_N in Heq. congruence.
Qed.

Lemma bytes_eqb_eq (a b : QByteArray) : Framing.bytes_eqb a b = true <-> a = b.
Proof.
  unfold Framing.bytes_eqb. rewrite bool_decide_eq_true. split.
  - revert b. induction a as [|x a IH]; intros [|y b] Hmap; try done.
    cbn in Hmap. injection Hmap as Hx Hrest.
    f_equal; [by apply to_N_inj | by apply IH].
  - by intros ->.
Qed.

(** C3.  Unframing a framed payload gives the payload back, whatever the
    bytes; [unframe] fails, with [MalformedFrame], exactly on the
    datagrams shorter than 4 bytes and on those whose first 4 bytes are
    not the marker, and a datagram it accepts is the framing of the
    payload it returns. *)
Theorem framing_roundtrip :
  (forall payload : QByteArray,
     Framing.unframe (Framing.frame payload) = Framing.Ok payload)
  /\ (forall datagram : QByteArray,
       Framing.unframe datagram = Framing.Err Framing.MalformedFrame
       <-> ((length datagram < 4)%nat \/ take 4 datagram <> Framing.marker))
  /\ (forall datagram payload : QByteArray,
       Framing.unframe datagram = Framing.Ok payload
       <-> datagram = Framing.frame payload).
Proof.
  assert (Hround : forall payload : QByteArray,
            Framing.unframe (Framing.frame payload) = Framing.Ok payload).
  { intros payload. unfold Framing.unframe, Framing.frame.
    replace (length (Framing.marker ++ payload) <? 4)%nat with false
      by (symmetry; apply Nat.ltb_ge; rewrite length_app; cbn; lia).
    change (take 4 (Framing.marker ++ payload)) with Framing.marker.
    rewrite (proj2 (bytes_eqb_eq _ _) eq_refl). reflexivity. }
  split; [exact Hround|]. split.
  - intros datagram. unfold Framing.unframe.
    destruct (Nat.ltb_spec (length datagram) 4) as [Hshort|Hlong].
    + split; [by left | done].
    + destruct (Framing.bytes_eqb (take 4 datagram) Framing.marker) eqn:Hmark.
      * apply bytes_eqb_eq in Hmark. split; [done|].
        intros [Hlt|Hne]; [lia | done].
      * split; [|done]. intros _. right. intros Heq.
        apply bytes_eqb_eq in Heq. congruence.
  - intros datagram payload. split.
    + unfold Framing.unframe.
      destruct (length datagram <? 4)%nat; [done|].
      destruct (Framing.bytes_eqb (take 4 datagram) Framing.marker) eqn:Hmark; [|done].
      apply bytes_eqb_eq in Hmark. intros [= <-].
      unfold Framing.frame. rewrite <- Hmark. by rewrite take_drop.
    + intros ->. apply Hround.
Qed.

(** Witness of C3: a datagram of three bytes is malformed, and a framed
    [getstatus] unframes to itself. *)
Lemma framing_roundtrip_witness :
  (length [Byte.xff; Byte.xff; Byte.xff] < 4)%nat
  /\ Framing.unframe [Byte.xff; Byte.xff; Byte.xff]
     = Framing.Err Framing.MalformedFrame
  /\ Framing.unframe (Framing.frame (literal "getstatus"))
     = Framing.Ok (literal "getstatus").
Proof.
  assert (Hshort : (length [Byte.xff; Byte.xff; Byte.xff] < 4)%nat) by (cbn; lia).
  split; [exact Hshort|]. split.
  - exact (proj2 (proj1 (proj2 framing_roundtrip) [Byte.xff; Byte.xff; Byte.xff])
             (or_introl Hshort)).
  - exact (proj1 framing_roundtrip (literal "getstatus")).
Defined.

(** *** The transcript logger *)

(** C5.  With the logging flag off [writeToLog] returns at once: the
    world after the call is the world before it, so the flag was tested
    before any call on a file, and no file was opened, created or
    written. *)
Theorem logging_off_no_file_io (self : t) (line : QString) (w : World) :
  QVariant_eq_literal (value (preferences self) "logging_enabled" (QVInt 1)) "0" = true ->
  writeToLog self line w = (tt, w)
  /\ file_events (new_events w (writeToLog self line w).2) = []
  /\ files (writeToLog self line w).2 = files w
  /\ handles (writeToLog self line w).2 = handles w.
Proof.
  intros Hoff. rewrite writeToLog_off by done. cbn.
  by rewrite new_events_same.
Qed.

(** Witness of C5: [logging_enabled=0] and a log file that does not
    exist: it is not created. *)
Lemma logging_off_no_file_io_witness :
  let self := Demo.window Demo.logging_off in
  let w := Demo.world [] in
  QVariant_eq_literal (value (preferences self) "logging_enabled" (QVInt 1)) "0" = true
  /\ writeToLog self "status" w = (tt, w)
  /\ files (writeToLog self "status" w).2 !! logFileName self = None.
Proof.
  intros self w.
  assert (Hoff : QVariant_eq_literal
                   (value (preferences self) "logging_enabled" (QVInt 1)) "0" = true)
    by (vm_compute; reflexivity).
  split; [exact Hoff|].
  destruct (logging_off_no_file_io self "status" w Hoff) as (Hsame & _ & Hfiles & _).
  split; [exact Hsame|]. rewrite Hfiles. vm_compute. reflexivity.
Defined.

Lemma value_lookup (settings : QSettings) (key : QString) (d : QVariant)
    (o : option QVariant) :
  settings !! key = o -> value settings key d = default d o.
Proof. by intros <-. Qed.

(** The comparison with ["0"] holds for the string ["0"] and for the
    integer 0, and for nothing else. *)
Lemma QVariant_eq_zero (v : QVariant) :
  QVariant_eq_literal v "0" = true <-> v = QVString "0" \/ v = QVInt 0.
Proof.
  destruct v as [n|s]; cbn.
  - change (toInt "0") with (Some 0). cbn. rewrite Z.eqb_eq. split.
    + intros ->. by right.
    + intros [Hs|Hn]; [done | congruence].
  - rewrite String.eqb_eq. split.
    + intros ->. by left.
    + intros [Hs|Hn]; [congruence | done].
Qed.

(** With logging on the append goes ahead. *)
Lemma writeToLog_proceeds (self : t) (line : QString) (w : World) :
  QVariant_eq_literal (value (preferences self) "logging_enabled" (QVInt 1)) "0" = false ->
  append_outcome (logFileName self) line w (writeToLog self line w).2.
Proof.
  intros Hon. unfold append_outcome.
  destruct (bool_decide_reflect (logFileName self ∈ denied w)) as [Hden|Hden].
  - rewrite writeToLog_denied by done. cbn [snd files].
    by erewrite new_events_app by reflexivity.
  - rewrite writeToLog_ok by done. cbn [snd files].
    by erewrite new_events_app by reflexivity.
Qed.

(** An append that went ahead has left a call in the trace. *)
Lemma append_outcome_events (name line : QString) (w w' : World) :
  append_outcome name line w w' -> new_events w w' <> [].
Proof.
  unfold append_outcome. destruct (bool_decide _); intros [Hev _]; by rewrite Hev.
Qed.

(** C9.  [writeToLog] gives up exactly when the value read for
    [logging_enabled], 1 when the key is absent, compares equal to the
    string ["0"]; in every other case the append goes ahead: the log file
    is opened for appending and, unless the system refuses, the line is
    written at its end and the file closed.  So an absent key and a
    stored string other than ["0"], such as ["false"], leave logging
    on. *)
Theorem logging_disabled_only_by_zero (self : t) (line : QString) (w : World) :
  let flag := value (preferences self) "logging_enabled" (QVInt 1) in
  let proceeds :=
    append_outcome (logFileName self) line w (writeToLog self line w).2 in
  (writeToLog self line w = (tt, w) <-> QVariant_eq_literal flag "0" = true)
  /\ (proceeds <-> QVariant_eq_literal flag "0" = false)
  /\ (preferences self !! "logging_enabled" = None -> proceeds)
  /\ (forall s : QString,
        preferences self !! "logging_enabled" = Some (QVString s) ->
        s <> "0" -> proceeds)
  /\ (preferences self !! "logging_enabled" = Some (QVString "false") -> proceeds)
  /\ (preferences self !! "logging_enabled" = Some (QVString "0") ->
      writeToLog self line w = (tt, w)).
Proof.
  intros flag proceeds.
  assert (Hon : QVariant_eq_literal flag "0" = false -> proceeds)
    by apply writeToLog_proceeds.
  assert (Hoff : QVariant_eq_literal flag "0" = true -> writeToLog self line w = (tt, w))
    by apply writeToLog_off.
  assert (Hexcl : proceeds -> writeToLog self line w = (tt, w) -> False).
  { intros Hp Hsame. apply append_outcome_events in Hp. apply Hp.
    rewrite Hsame. by apply new_events_same. }
  assert (Hstr : forall s : QString,
            preferences self !! "logging_enabled" = Some (QVString s) ->
            s <> "0" -> proceeds).
  { intros s Hs Hne. apply Hon. unfold flag.
    rewrite (value_lookup _ _ _ _ Hs). cbn. by apply String.eqb_neq. }
  split_and!.
  - split; [|exact Hoff]. intros Hsame.
    destruct (QVariant_eq_literal flag "0") eqn:Hflag; [reflexivity|].
    exfalso. eauto.
  - split; [|exact Hon]. intros Hp.
    destruct (QVariant_eq_literal flag "0") eqn:Hflag; [|reflexivity].
    exfalso. eauto.
  - intros Habsent. apply Hon. unfold flag.
    by rewrite (value_lookup _ _ _ _ Habsent).
  - exact Hstr.
  - intros Hfalse. by apply (Hstr "false").
  - intros Hzero. apply Hoff. unfold flag.
    by rewrite (value_lookup _ _ _ _ Hzero).
Qed.

(** Witness of C9: no key at all, then [logging_enabled=false]: in both
    cases the line is written and the log file, which did not exist,
    holds it. *)
Lemma logging_disabled_only_by_zero_witness :
  let absent := Demo.window ∅ in
  let stored := Demo.window {["logging_enabled" := QVString "false"]} in
  let w := Demo.world [] in
  (preferences absent !! "logging_enabled" = None
   /\ log_writes (new_events w (writeToLog absent "status" w).2) = ["status"]
   /\ files (writeToLog absent "status" w).2 !! logFileName absent = Some "status")
  /\ (preferences stored !! "logging_enabled" = Some (QVString "false")
      /\ log_writes (new_events w (writeToLog stored "status" w).2) = ["status"]
      /\ files (writeToLog stored "status" w).2 !! logFileName stored
         = Some "status").
Proof.
  intros absent stored w.
  assert (Habsent : preferences absent !! "logging_enabled" = None)
    by (vm_compute; reflexivity).
  assert (Hstored : preferences stored !! "logging_enabled" = Some (QVString "false"))
    by (vm_compute; reflexivity).
  assert (Hfree : forall name : QString, bool_decide (name ∈ denied w) = false).
  { intros name. apply bool_decide_eq_false_2. apply not_elem_of_empty. }
  pose proof (proj1 (proj2 (proj2 (logging_disabled_only_by_zero absent "status" w)))
                Habsent) as [Hev1 Hfiles1].
  pose proof (proj1 (proj2 (proj2 (proj2 (proj2
                (logging_disabled_only_by_zero stored "status" w))))) Hstored)
    as [Hev2 Hfiles2].
  split.
  - split; [exact Habsent|]. split.
    + rewrite Hev1. reflexivity.
    + rewrite Hfiles1. apply lookup_insert_eq.
  - split; [exact Hstored|]. split.
    + rewrite Hev2. reflexivity.
    + rewrite Hfiles2. apply lookup_insert_eq.
Defined.

Lemma last_two {A : Type} (l : list A) (x y : A) : last (l ++ [x; y]) = Some y.
Proof. change [x; y] with ([x] ++ [y]). rewrite app_assoc. apply last_snoc. Qed.

(** C6.  When the log file cannot be opened [writeToLog] records the
    failed attempt and returns: nothing is written, the files and the
    handles are as before and no error is shown.  A command being sent is
    not held up: the accepted [sendCommand] still updates [lastCommand]
    and hands the command to the rcon client, as the last call it
    records. *)
Theorem log_open_failure_absorbed `{TextLib}
    (self : t) (line : QString) (command : QByteArray) (w : World) :
  logFileName self ∈ denied w ->
  (files (writeToLog self line w).2 = files w
   /\ handles (writeToLog self line w).2 = handles w
   /\ log_writes (new_events w (writeToLog self line w).2) = []
   /\ errors_raised (new_events w (writeToLog self line w).2) = []
   /\ rcon_sent (new_events w (writeToLog self line w).2) = [])
  /\ ((msecsTo (lastCommand self) (clock w (ticks w)) <? 1000) = false ->
      let r := sendCommand self command w in
      lastCommand r.1 = clock w (ticks w)
      /\ files r.2 = files w
      /\ handles r.2 = handles w
      /\ log_writes (new_events w r.2) = []
      /\ errors_raised (new_events w r.2) = []
      /\ rcon_sent (new_events w r.2) = [command]
      /\ last (new_events w r.2) = Some (RconSend command)).
Proof.
  intros Hden.
  assert (Hlog : forall (self' : t) (line' : QString) (w' : World),
            logFileName self' = logFileName self -> denied w' = denied w ->
            exists evs,
              trace (writeToLog self' line' w').2 = trace w' ++ evs
              /\ files (writeToLog self' line' w').2 = files w'
              /\ handles (writeToLog self' line' w').2 = handles w'
              /\ log_writes evs = [] /\ errors_raised evs = [] /\ rcon_sent evs = []).
  { intros self' line' w' Hname Hdenied.
    destruct (QVariant_eq_literal
                (value (preferences self') "logging_enabled" (QVInt 1)) "0") eqn:Hflag.
    - rewrite writeToLog_off by done. exists []. by rewrite app_nil_r.
    - rewrite writeToLog_denied by (by rewrite ?Hname, ?Hdenied).
      by eexists. }
  split.
  - destruct (Hlog self line w eq_refl eq_refl) as (evs & Htr & -> & -> & ? & ? & ?).
    rewrite (new_events_app _ _ _ Htr). done.
  - intros Hgate r. unfold r. rewrite sendCommand_accept by done. cbn.
    match goal with |- context [writeToLog ?s ?l ?w1] =>
      destruct (Hlog s l w1 eq_refl eq_refl)
        as (evs & Htr & Hfiles & Hhandles & Hwr & Herr & Hsent) end.
    rewrite Htr, Hfiles, Hhandles. cbn.
    erewrite new_events_app by (cbn; rewrite <- !app_assoc; reflexivity).
    unfold log_writes, errors_raised, rcon_sent in *.
    rewrite !omap_app, Hwr, Herr, Hsent. cbn.
    split_and!; try done.
    apply (last_two (MoveCursorEnd :: evs)).
Qed.

(** Witness of C6: the log file of the server is refused; the command is
    sent all the same. *)
Lemma log_open_failure_absorbed_witness :
  let self := Demo.window ∅ in
  let w := Demo.locked [0; 0] in
  let r := @sendCommand Reference.textLib self (literal "status") w in
  logFileName self ∈ denied w
  /\ files (writeToLog self "status" w).2 = files w
  /\ rcon_sent (new_events w r.2) = [literal "status"]
  /\ files r.2 = files w.
Proof.
  intros self w r.
  assert (Hden : logFileName self ∈ denied w).
  { apply (bool_decide_unpack _). vm_compute. exact I. }
  split; [exact Hden|].
  destruct (@log_open_failure_absorbed Reference.textLib self "status"
              (literal "status") w Hden) as [(Hfiles & _) Hsend].
  split; [exact Hfiles|].
  specialize (Hsend ltac:(vm_compute; reflexivity)).
  cbv zeta in Hsend. fold r in Hsend.
  destruct Hsend as (_ & ? & _ & _ & _ & ? & _). done.
Defined.

(** *** The password and the transcript *)

(** [writeToLog] reads two fields of the window only. *)
Lemma writeToLog_ext (s1 s2 : t) (line : QString) (w : World) :
  preferences s1 = preferences s2 -> logFileName s1 = logFileName s2 ->
  writeToLog s1 line w = writeToLog s2 line w.
Proof. intros Hp Hn. unfold writeToLog. by rewrite Hp, Hn. Qed.

Lemma logLines_ext (s1 s2 : t) (lines : list Output) (w : World) :
  preferences s1 = preferences s2 -> logFileName s1 = logFileName s2 ->
  logLines s1 lines w = logLines s2 lines w.
Proof.
  intros Hp Hn. revert w. induction lines as [|line rest IH]; intros w; [done|].
  cbn. unfold mbind, M_bind. rewrite (writeToLog_ext s1 s2) by done.
  destruct (writeToLog s2 (getText line) w) as [[] w1].
  destruct (emit (InsertHtml (toHtml line)) w1) as [[] w2]. apply IH.
Qed.

Section Password.
Context `{TextLib}.

(** Every slot does to the world what it does with any other password,
    and keeps the password it was given. *)
Lemma dispatch_password (self : t) (password : QString) (c : Call) (w : World) :
  dispatch (with_password self password) c w
  = (with_password (dispatch self c w).1 password, (dispatch self c w).2).
Proof.
  assert (Hsend : forall command,
            sendCommand (with_password self password) command w
            = (with_password (sendCommand self command w).1 password,
               (sendCommand self command w).2)).
  { intros command. unfold sendCommand. run_m.
    destruct (msecsTo (lastCommand self) (clock w (ticks w)) <? 1000); [done|].
    run_m.
    rewrite (writeToLog_ext
               (set_lastCommand (with_password self password) (clock w (ticks w)))
               (set_lastCommand self (clock w (ticks w)))) by done.
    by destruct (writeToLog _ _ _) as [[] w1]. }
  destruct c as [text| | | |output|ctrl dir]; cbn.
  - apply Hsend.
  - apply Hsend.
  - apply Hsend.
  - done.
  - unfold onReceiveRcon. run_m.
    rewrite (logLines_ext (with_password self password) self) by done.
    by destruct (logLines _ _ _) as [[] w1].
  - unfold on_actionView_log_triggered, openFileAsDefault. run_m.
    destruct ctrl; [done|].
    by destruct (bool_decide _).
Qed.

Lemma session_password (self : t) (password : QString) (calls : list Call) (w : World) :
  session (with_password self password) calls w
  = (with_password (session self calls w).1 password, (session self calls w).2).
Proof.
  revert self w. induction calls as [|c rest IH]; intros self w; cbn.
  - done.
  - unfold mbind, M_bind. rewrite dispatch_password.
    destruct (dispatch self c w) as [self1 w1]. cbn. apply IH.
Qed.

(** What an accepted call leaves in the transcript. *)
Lemma sendCommand_accept_log (self : t) (command : QByteArray) (w : World) :
  (msecsTo (lastCommand self) (clock w (ticks w)) <? 1000) = false ->
  let r := sendCommand self command w in
  let output :=
    QDateTime_toString (clock w (S (ticks w))) +:+ " > " +:+ fromUtf8 command in
  if QVariant_eq_literal (value (preferences self) "logging_enabled" (QVInt 1)) "0"
  then log_writes (new_events w r.2) = [] /\ files r.2 = files w
  else if bool_decide (logFileName self ∈ denied w)
  then log_writes (new_events w r.2) = [] /\ files r.2 = files w
  else log_writes (new_events w r.2) = [output +:+ LF +:+ LF]
       /\ files r.2 =
          <[logFileName self :=
              default "" (files w !! logFileName self) +:+ output +:+ LF +:+ LF]>
            (files w).
Proof.
  intros Hgate r output. unfold r. rewrite sendCommand_accept by done. cbn.
  fold output.
  destruct (QVariant_eq_literal _ _) eqn:Hflag.
  - rewrite writeToLog_off by done. cbn.
    erewrite new_events_app by (cbn; rewrite <- !app_assoc; reflexivity). done.
  - destruct (bool_decide_reflect (logFileName self ∈ denied w)) as [Hden|Hden].
    + rewrite writeToLog_denied by done. cbn.
      erewrite new_events_app by (cbn; rewrite <- !app_assoc; reflexivity). done.
    + rewrite writeToLog_ok by done. cbn.
      erewrite new_events_app by (cbn; rewrite <- !app_assoc; reflexivity). done.
Qed.

End Password.

(** C4.  The record an accepted [sendCommand] appends to the transcript
    is the timestamp, [" > "] and the command, closed by two line feeds,
    and nothing else is written; it is computed without the rcon
    password: over a whole session the calls recorded and the files left
    are the same whatever the password of the window, although the
    datagram of the rcon client carries [rcon <password> <command>]. *)
Theorem transcript_hides_password `{TextLib}
    (self : t) (command : QByteArray) (w : World) :
  (msecsTo (lastCommand self) (clock w (ticks w)) <? 1000) = false ->
  let r := sendCommand self command w in
  let output :=
    QDateTime_toString (clock w (S (ticks w))) +:+ " > " +:+ fromUtf8 command in
  (forall text, text ∈ log_writes (new_events w r.2) -> text = output +:+ LF +:+ LF)
  /\ (QVariant_eq_literal (value (preferences self) "logging_enabled" (QVInt 1)) "0"
      = false ->
      logFileName self ∉ denied w ->
      log_writes (new_events w r.2) = [output +:+ LF +:+ LF]
      /\ files r.2 !! logFileName self
         = Some (default "" (files w !! logFileName self) +:+ output +:+ LF +:+ LF))
  /\ (forall password : QString,
        (sendCommand (with_password self password) command w).2 = r.2)
  /\ (forall (password : QString) (calls : list Call),
        (session (with_password self password) calls w).2 = (session self calls w).2)
  /\ (forall password : QString,
        Rcon_datagram (rcon (with_password self password)) command
        = Framing.marker ++ literal "rcon " ++ literal password ++ literal " "
          ++ command).
Proof.
  intros Hgate r output.
  pose proof (sendCommand_accept_log self command w Hgate) as Hlog.
  cbv zeta in Hlog. fold r in Hlog. fold output in Hlog.
  split_and!.
  - intros text Hin.
    destruct (QVariant_eq_literal _ _).
    + destruct Hlog as [Hw _]. rewrite Hw in Hin. by apply elem_of_nil in Hin.
    + destruct (bool_decide _).
      * destruct Hlog as [Hw _]. rewrite Hw in Hin. by apply elem_of_nil in Hin.
      * destruct Hlog as [Hw _]. rewrite Hw in Hin.
        by apply list_elem_of_singleton in Hin.
  - intros Hon Hfree. rewrite Hon in Hlog.
    rewrite bool_decide_eq_false_2 in Hlog by done.
    destruct Hlog as [Hw Hfiles]. split; [done|].
    rewrite Hfiles. apply lookup_insert_eq.
  - intros password.
    pose proof (dispatch_password self password (SendButton command) w) as Hd.
    cbn in Hd. unfold on_sendButton_clicked in Hd. by rewrite Hd.
  - intros password calls. by rewrite session_password.
  - intros password. reflexivity.
Qed.

(** Witness of C4: the first command of the demonstration window. *)
Lemma transcript_hides_password_witness :
  let self := Demo.window ∅ in
  let w := Demo.world [0; 7] in
  let r := @sendCommand Reference.textLib self (literal "status") w in
  (msecsTo (lastCommand self) (clock w (ticks w)) <? 1000) = false
  /\ log_writes (new_events w r.2) = ["7 > status" +:+ LF +:+ LF]
  /\ (@sendCommand Reference.textLib (with_password self "secret")
        (literal "status") w).2 = r.2.
Proof.
  intros self w r.
  assert (Hgate : (msecsTo (lastCommand self) (clock w (ticks w)) <? 1000) = false)
    by (vm_compute; reflexivity).
  split; [exact Hgate|].
  pose proof (@transcript_hides_password Reference.textLib self (literal "status") w
                Hgate) as Hlog.
  cbv zeta in Hlog. fold r in Hlog.
  destruct Hlog as (_ & Hrecord & Hpw & _).
  split; [|apply Hpw].
  refine (proj1 (Hrecord _ _)).
  - vm_compute. reflexivity.
  - apply (bool_decide_unpack _). vm_compute. exact I.
Defined.

(** *** The log file is only ever appended to *)

Lemma string_app_nil_r (s : string) : s +:+ "" = s.
Proof.
  induction s as [|c s IH]; [done|].
  change (String c (s +:+ "") = String c s). by rewrite IH.
Qed.

Lemma string_app_assoc (a b c : string) : (a +:+ b) +:+ c = a +:+ b +:+ c.
Proof.
  induction a as [|x a IH]; [done|].
  change (String x ((a +:+ b) +:+ c) = String x (a +:+ b +:+ c)). by rewrite IH.
Qed.

Lemma appends_only_refl (name : QString) (w : World) : appends_only name w w.
Proof.
  split_and!; try done.
  - intros f c Hf. exists "". by rewrite string_app_nil_r.
  - exists []. by rewrite app_nil_r.
Qed.

Lemma appends_only_trans (name : QString) (w1 w2 w3 : World) :
  appends_only name w1 w2 -> appends_only name w2 w3 -> appends_only name w1 w3.
Proof.
  intros (Hh1 & Hd1 & Hf1 & evs1 & Ht1 & Hok1) (Hh2 & Hd2 & Hf2 & evs2 & Ht2 & Hok2).
  split_and!; try congruence.
  - intros f c Hf. destruct (Hf1 f c Hf) as [s1 Hs1].
    destruct (Hf2 f _ Hs1) as [s2 Hs2].
    exists (s1 +:+ s2). by rewrite <- string_app_assoc.
  - exists (evs1 ++ evs2). split.
    + by rewrite Ht2, Ht1, app_assoc.
    + by apply Forall_app.
Qed.

(** A recorded call that is no call on another file. *)
Lemma appends_only_emit (name : QString) (e : Event) (w : World) :
  log_event_ok name e -> appends_only name w (emit e w).2.
Proof.
  intros Hok. split_and!; try done.
  - intros f c Hf. exists "". by rewrite string_app_nil_r.
  - exists [e]. split; [done | by constructor].
Qed.

Lemma appends_only_clock (name : QString) (w : World) :
  appends_only name w (currentDateTime w).2.
Proof.
  split_and!; try done.
  - intros f c Hf. exists "". by rewrite string_app_nil_r.
  - exists []. cbn. by rewrite app_nil_r.
Qed.

Lemma appends_only_writeToLog (self : t) (line : QString) (w : World) :
  appends_only (logFileName self) w (writeToLog self line w).2.
Proof.
  destruct (QVariant_eq_literal
              (value (preferences self) "logging_enabled" (QVInt 1)) "0") eqn:Hflag.
  - rewrite writeToLog_off by done. apply appends_only_refl.
  - destruct (decide (logFileName self ∈ denied w)) as [Hden|Hden].
    + rewrite writeToLog_denied by done. split_and!; try done.
      * intros f c Hf. exists "". by rewrite string_app_nil_r.
      * eexists. split; [reflexivity | by repeat constructor].
    + rewrite writeToLog_ok by done. split_and!; try done.
      * intros f c Hf. cbn.
        destruct (decide (f = logFileName self)) as [->|Hne].
        -- exists line. rewrite lookup_insert_eq. unfold QString in *.
           by rewrite Hf.
        -- exists "". rewrite lookup_insert_ne by done.
           by rewrite string_app_nil_r.
      * eexists. split; [reflexivity | by repeat constructor].
Qed.

Lemma appends_only_logLines (self : t) (lines : list Output) (w : World) :
  appends_only (logFileName self) w (logLines self lines w).2.
Proof.
  revert w. induction lines as [|line rest IH]; intros w; cbn.
  - apply appends_only_refl.
  - unfold mbind, M_bind.
    pose proof (appends_only_writeToLog self (getText line) w) as H1.
    destruct (writeToLog self (getText line) w) as [[] w1]. cbn in H1.
    pose proof (appends_only_emit (logFileName self) (InsertHtml (toHtml line)) w1 I)
      as H2.
    destruct (emit (InsertHtml (toHtml line)) w1) as [[] w2]. cbn in H2.
    eapply appends_only_trans; [exact H1|].
    eapply appends_only_trans; [exact H2|]. apply IH.
Qed.

Section AppendOnly.
Context `{TextLib}.

Lemma appends_only_sendCommand (self : t) (command : QByteArray) (w : World) :
  logFileName (sendCommand self command w).1 = logFileName self
  /\ appends_only (logFileName self) w (sendCommand self command w).2.
Proof.
  destruct (msecsTo (lastCommand self) (clock w (ticks w)) <? 1000) eqn:Hgate.
  - rewrite sendCommand_reject by done. split; [done|].
    apply (appends_only_clock _ w).
  - rewrite sendCommand_accept by done. cbn. split; [done|].
    match goal with |- context [writeToLog ?s ?l ?w1] =>
      pose proof (appends_only_writeToLog s l w1) as Hlog;
      destruct (writeToLog s l w1) as [[] w2] end.
    cbn in *. destruct Hlog as (Hh & Hd & Hf & evs & Ht & Hok).
    split_and!; try done.
    eexists. rewrite Ht. cbn. rewrite <- !app_assoc. split; [reflexivity|].
    cbn. constructor; [done|]. apply Forall_app. split; [done|].
    by repeat constructor.
Qed.

Lemma appends_only_dispatch (self : t) (c : Call) (w : World) :
  logFileName (dispatch self c w).1 = logFileName self
  /\ appends_only (logFileName self) w (dispatch self c w).2.
Proof.
  destruct c as [text| | | |output|ctrl dir]; cbn.
  - apply appends_only_sendCommand.
  - apply appends_only_sendCommand.
  - apply appends_only_sendCommand.
  - split; [done|]. by apply (appends_only_emit _ (QuerySend _)).
  - unfold onReceiveRcon. run_m.
    pose proof (appends_only_logLines self (OutputParser_parse output)
                  (mkWorld (clock w) (ticks w) (files w) (denied w) (handles w)
                     (trace w ++ [MoveCursorEnd]))) as Hlines.
    destruct (logLines _ _ _) as [[] w1]. cbn in *. split; [done|].
    eapply appends_only_trans; [by apply (appends_only_emit _ MoveCursorEnd w)|].
    eapply appends_only_trans; [exact Hlines|].
    by apply (appends_only_emit _ RestoreCursor w1).
  - unfold on_actionView_log_triggered, openFileAsDefault. run_m.
    destruct ctrl; cbn.
    + split; [done|]. by apply (appends_only_emit _ (OpenUrl _)).
    + destruct (bool_decide _); cbn; (split; [done|]).
      * by apply (appends_only_emit _ (OpenUrl _)).
      * by apply (appends_only_emit _ (MessageBoxCritical _)).
Qed.

Lemma appends_only_session (self : t) (calls : list Call) (w : World) :
  logFileName (session self calls w).1 = logFileName self
  /\ appends_only (logFileName self) w (session self calls w).2.
Proof.
  revert self w. induction calls as [|c rest IH]; intros self w; cbn.
  - split; [done | apply appends_only_refl].
  - unfold mbind, M_bind.
    destruct (appends_only_dispatch self c w) as [Hname Hstep].
    destruct (dispatch self c w) as [self1 w1]. cbn in *.
    destruct (IH self1 w1) as [Hname' Hrest]. rewrite Hname in *.
    split; [done|]. by eapply appends_only_trans.
Qed.

End AppendOnly.

(** C7.  The name of the log file is computed from the address and the
    port of the server alone, and no slot changes it.  Every [writeToLog]
    that logging lets through opens that file with [WriteOnly | Append],
    a mode that does not truncate, writes the line at the end of what the
    file held, and has released the handle when it returns.  So over any
    session no handle stays open and every file keeps its former content
    as a prefix of the new one. *)
Theorem log_file_append_only `{TextLib} `{TimeZone} :
  (forall (s1 s2 : Server) (settings1 settings2 : QSettings) (w1 w2 : World),
     getIp s1 = getIp s2 -> getPort s1 = getPort s2 ->
     logFileName (new s1 settings1 w1).1 = logFileName (new s2 settings2 w2).1)
  /\ (forall (server : Server) (settings : QSettings) (w : World),
        logFileName (new server settings w).1
        = QString_arg_int (QString_arg "log_%1_%2.log" (getIp server)) (getPort server))
  /\ has_flag (Z.lor WriteOnly Append) Append = true
  /\ truncates (Z.lor WriteOnly Append) = false
  /\ (forall (self : t) (line : QString) (w : World),
        QVariant_eq_literal (value (preferences self) "logging_enabled" (QVInt 1)) "0"
        = false ->
        append_outcome (logFileName self) line w (writeToLog self line w).2
        /\ handles (writeToLog self line w).2 = handles w)
  /\ (forall (self : t) (line : QString) (w : World),
        appends_only (logFileName self) w (writeToLog self line w).2)
  /\ (forall (self : t) (calls : list Call) (w : World) (f : QString) (c : string),
        files w !! f = Some c ->
        logFileName (session self calls w).1 = logFileName self
        /\ handles (session self calls w).2 = handles w
        /\ (exists suffix, files (session self calls w).2 !! f = Some (c +:+ suffix))
        /\ appends_only (logFileName self) w (session self calls w).2).
Proof.
  split_and!.
  - intros s1 s2 settings1 settings2 w1 w2 Hip Hport.
    rewrite !new_window. cbn [logFileName]. by rewrite Hip, Hport.
  - intros server settings w. by rewrite new_window.
  - reflexivity.
  - reflexivity.
  - intros self line w Hon. split.
    + by apply writeToLog_proceeds.
    + apply writeToLog_clock.
  - apply appends_only_writeToLog.
  - intros self calls w f c Hf.
    destruct (appends_only_session self calls w) as [Hname Hall].
    pose proof Hall as (Hh & _ & Hfiles & _).
    split_and!; try done. by apply Hfiles.
Qed.

(** Witness of C7: two servers that differ in the password only share
    their log file; one [writeToLog] leaves the old content of that file
    followed by the line; a session of two commands and a poll keeps the
    old content in front and leaves no handle open. *)
Lemma log_file_append_only_witness :
  let s2 := mkServer "10.0.0.1" 28960 "other" in
  let self := Demo.window ∅ in
  let w := mkWorld (fun n => nth n [0; 1; 2000; 2001] 0) 0
             {["log_10.0.0.1_28960.log" := "old" +:+ LF]} ∅ [] [] in
  let calls := [ActionStatus; StatusTimer; ActionServerInfo] in
  (getIp Demo.server = getIp s2 /\ getPort Demo.server = getPort s2)
  /\ logFileName (@new Reference.textLib Reference.utc Demo.server ∅ w).1
     = logFileName (@new Reference.textLib Reference.utc s2 Demo.logging_off w).1
  /\ files w !! "log_10.0.0.1_28960.log" = Some ("old" +:+ LF)
  /\ (QVariant_eq_literal (value (preferences self) "logging_enabled" (QVInt 1)) "0"
      = false
      /\ new_events w (writeToLog self "status" w).2
         = [FileOpen "log_10.0.0.1_28960.log" (Z.lor WriteOnly Append) true;
            FileWrite "log_10.0.0.1_28960.log" "status";
            FileClose "log_10.0.0.1_28960.log"]
      /\ files (writeToLog self "status" w).2 !! "log_10.0.0.1_28960.log"
         = Some (("old" +:+ LF) +:+ "status")
      /\ handles (writeToLog self "status" w).2 = handles w)
  /\ handles (@session Reference.textLib self calls w).2 = handles w
  /\ exists suffix,
       files (@session Reference.textLib self calls w).2 !! "log_10.0.0.1_28960.log"
       = Some (("old" +:+ LF) +:+ suffix).
Proof.
  intros s2 self w calls.
  assert (Hip : getIp Demo.server = getIp s2) by reflexivity.
  assert (Hport : getPort Demo.server = getPort s2) by reflexivity.
  assert (Hfile : files w !! "log_10.0.0.1_28960.log" = Some ("old" +:+ LF))
    by (vm_compute; reflexivity).
  assert (Hon : QVariant_eq_literal
                  (value (preferences self) "logging_enabled" (QVInt 1)) "0" = false)
    by (vm_compute; reflexivity).
  split; [by split|].
  split.
  { exact (proj1 (@log_file_append_only Reference.textLib Reference.utc)
             Demo.server s2 ∅ Demo.logging_off w w Hip Hport). }
  split; [exact Hfile|].
  split.
  { destruct (proj1 (proj2 (proj2 (proj2 (proj2
                (@log_file_append_only Reference.textLib Reference.utc)))))
                self "status" w Hon) as [[Hev Hfiles] Hh].
    split; [exact Hon|]. split; [exact Hev|]. split; [|exact Hh].
    rewrite Hfiles. apply lookup_insert_eq. }
  destruct (proj2 (proj2 (proj2 (proj2 (proj2 (proj2
              (@log_file_append_only Reference.textLib Reference.utc))))))
              self calls w _ _ Hfile) as (_ & Hh & Hsuffix & _).
  split; [exact Hh | exact Hsuffix].
Defined.

(** *** The status poll *)

Lemma omap_replicate_query (n : nat) (c : QByteArray) :
  query_sent (replicate n (QuerySend c)) = replicate n c
  /\ rcon_sent (replicate n (QuerySend c)) = [].
Proof.
  induction n as [|n [IHq IHr]]; [done|]. cbn. split; [by f_equal | done].
Qed.

(** [n] timer ticks in a row. *)
Lemma session_ticks `{TextLib} (self : t) (n : nat) (w : World) :
  session self (replicate n StatusTimer) w
  = (self, mkWorld (clock w) (ticks w) (files w) (denied w) (handles w)
             (trace w ++ replicate n (QuerySend (literal "getstatus")))).
Proof.
  revert w. induction n as [|n IH]; intros w; cbn.
  - by rewrite app_nil_r, world_eta.
  - unfold requestServerStatus. run_m. rewrite IH. cbn.
    by rewrite <- app_assoc.
Qed.

(** C10.  [requestServerStatus] hands [getstatus] to the status client
    at every call: it returns the window as it was, reads no clock, and
    does the same whatever [lastCommand] is, so any number of timer ticks
    in a row are all sent and none reaches the rcon client; a
    [sendCommand] that follows a poll is judged as if the poll had not
    taken place. *)
Theorem status_poll_bypasses_gate `{TextLib} (self : t) (w : World) :
  let r := requestServerStatus self w in
  r.1 = self
  /\ new_events w r.2 = [QuerySend (literal "getstatus")]
  /\ ticks r.2 = ticks w /\ clock r.2 = clock w
  /\ files r.2 = files w /\ handles r.2 = handles w
  /\ (forall last : QDateTime,
        (requestServerStatus (set_lastCommand self last) w).2 = r.2
        /\ lastCommand (requestServerStatus (set_lastCommand self last) w).1 = last)
  /\ (forall n : nat,
        let rn := session self (replicate n StatusTimer) w in
        rn.1 = self
        /\ query_sent (new_events w rn.2) = replicate n (literal "getstatus")
        /\ rcon_sent (new_events w rn.2) = [])
  /\ (forall command : QByteArray,
        lastCommand (sendCommand r.1 command r.2).1
        = lastCommand (sendCommand self command w).1
        /\ rcon_sent (new_events r.2 (sendCommand r.1 command r.2).2)
           = rcon_sent (new_events w (sendCommand self command w).2)).
Proof.
  intros r.
  assert (Hr : r = (self, mkWorld (clock w) (ticks w) (files w) (denied w) (handles w)
                            (trace w ++ [QuerySend (literal "getstatus")])))
    by reflexivity.
  rewrite Hr. cbn [fst snd clock ticks files handles trace].
  split_and!; try done.
  - by erewrite new_events_app.
  - intros n. rewrite session_ticks. cbn [fst snd].
    erewrite new_events_app by reflexivity.
    split; [done|]. apply omap_replicate_query.
  - intros command.
    set (w1 := mkWorld (clock w) (ticks w) (files w) (denied w) (handles w)
                 (trace w ++ [QuerySend (literal "getstatus")])).
    destruct (msecsTo (lastCommand self) (clock w (ticks w)) <? 1000) eqn:Hgate.
    + rewrite (sendCommand_reject self command w1) by done.
      rewrite (sendCommand_reject self command w) by done. cbn [fst snd].
      by rewrite !new_events_same by done.
    + destruct (sendCommand_accept_sent self command w1 Hgate) as (-> & _ & ->).
      by destruct (sendCommand_accept_sent self command w Hgate) as (-> & _ & ->).
Qed.

(** ** Further properties of the window *)

Import Shown.

(** *** The rate of the commands over a session *)

Lemma new_events_trans (w w1 w2 : World) (e1 e2 : list Event) :
  trace w1 = trace w ++ e1 -> trace w2 = trace w1 ++ e2 ->
  new_events w w2 = new_events w w1 ++ new_events w1 w2.
Proof.
  intros H1 H2. rewrite (new_events_app _ _ _ H1), (new_events_app _ _ _ H2).
  apply new_events_app. by rewrite H2, H1, app_assoc.
Qed.

Lemma appends_only_trace (name : QString) (w w' : World) :
  appends_only name w w' -> exists evs, trace w' = trace w ++ evs.
Proof. intros (_ & _ & _ & evs & Ht & _). by exists evs. Qed.

(** File events are no sends. *)
Lemma log_events_quiet (name : QString) (evs : list Event) :
  Forall (fun e => is_file_event e = true) evs ->
  rcon_sent evs = [] /\ query_sent evs = [] /\ errors_raised evs = []
  /\ html_inserted evs = [] /\ urls_opened evs = [].
Proof.
  induction 1 as [|e evs He _ IH]; [done|].
  destruct IH as (? & ? & ? & ? & ?). destruct e; try done.
Qed.

Lemma writeToLog_file_events (self : t) (line : QString) (w : World) :
  exists evs,
    trace (writeToLog self line w).2 = trace w ++ evs
    /\ Forall (fun e => is_file_event e = true) evs.
Proof.
  destruct (QVariant_eq_literal
              (value (preferences self) "logging_enabled" (QVInt 1)) "0") eqn:Hflag.
  - rewrite writeToLog_off by done. exists []. by rewrite app_nil_r.
  - destruct (decide (logFileName self ∈ denied w)) as [Hden|Hden].
    + rewrite writeToLog_denied by done. eexists. split; [reflexivity|].
      by repeat constructor.
    + rewrite writeToLog_ok by done. eexists. split; [reflexivity|].
      by repeat constructor.
Qed.

(** What the loop of [onReceiveRcon] records, whatever the logging does. *)
Lemma logLines_trace (self : t) (lines : list Output) (w : World) :
  exists evs,
    trace (logLines self lines w).2 = trace w ++ evs
    /\ html_inserted evs = map toHtml lines
    /\ rcon_sent evs = [] /\ query_sent evs = [] /\ errors_raised evs = []
    /\ urls_opened evs = []
    /\ clock (logLines self lines w).2 = clock w
    /\ ticks (logLines self lines w).2 = ticks w.
Proof.
  revert w. induction lines as [|line rest IH]; intros w; cbn.
  - exists []. by rewrite app_nil_r.
  - unfold mbind, M_bind.
    destruct (writeToLog_file_events self (getText line) w) as (e1 & Ht1 & Hf1).
    destruct (writeToLog_clock self (getText line) w) as (Hc1 & Hk1 & _).
    destruct (writeToLog self (getText line) w) as [[] w1]. cbn in *.
    destruct (IH (emit (InsertHtml (toHtml line)) w1).2)
      as (e2 & Ht2 & Hh2 & Hr2 & Hq2 & He2 & Hu2 & Hc2 & Hk2).
    cbn in *.
    destruct (log_events_quiet (logFileName self) e1 Hf1) as (? & ? & ? & ? & ?).
    exists (e1 ++ [InsertHtml (toHtml line)] ++ e2). split_and!.
    + rewrite Ht2, Ht1. by rewrite <- !app_assoc.
    + unfold html_inserted in *. rewrite !omap_app. cbn. by rewrite H2, Hh2.
    + unfold rcon_sent in *. rewrite !omap_app. cbn. by rewrite H, Hr2.
    + unfold query_sent in *. rewrite !omap_app. cbn. by rewrite H0, Hq2.
    + unfold errors_raised in *. rewrite !omap_app. cbn. by rewrite H1, He2.
    + unfold urls_opened in *. rewrite !omap_app. cbn. by rewrite H3, Hu2.
    + congruence.
    + congruence.
Qed.

Section Rate.
Context `{TextLib}.


Lemma dispatch_trace (self : t) (c : Call) (w : World) :
  exists evs, trace (dispatch self c w).2 = trace w ++ evs.
Proof.
  destruct (appends_only_dispatch self c w) as [_ Happ].
  by eapply appends_only_trace.
Qed.

Lemma session_trace (self : t) (calls : list Call) (w : World) :
  exists evs, trace (session self calls w).2 = trace w ++ evs.
Proof.
  destruct (appends_only_session self calls w) as [_ Happ].
  by eapply appends_only_trace.
Qed.


End Rate.


(** The send button and the two menu commands go through one gate: a
    second one that comes less than 1000 ms after an accepted first is
    dropped, whichever of the three slots they are. *)
Theorem slots_share_gate `{TextLib}
    (c1 c2 : Call) (cmd1 cmd2 : QByteArray) (self : t) (w : World) :
  let now1 := clock w (ticks w) in
  let now2 := clock w (S (S (ticks w))) in
  let r1 := dispatch self c1 w in
  let r2 := dispatch r1.1 c2 r1.2 in
  command_of c1 = Some cmd1 -> command_of c2 = Some cmd2 ->
  clock_range (lastCommand self) -> clock_range now1 -> clock_range now2 ->
  now1 - lastCommand self >= 1000 -> now2 - now1 < 1000 ->
  rcon_sent (new_events w r1.2) = [cmd1]
  /\ new_events r1.2 r2.2 = []
  /\ lastCommand r2.1 = now1
  /\ files r2.2 = files r1.2.
Proof.
  intros now1 now2 r1 r2 Hc1 Hc2 Hlast Hnow1 Hnow2 Hopen Hsoon.
  assert (Hd : forall (c : Call) (cmd : QByteArray) (s : t) (w' : World),
            command_of c = Some cmd -> dispatch s c w' = sendCommand s cmd w').
  { intros c cmd s w' Hc. destruct c; cbn in Hc; try done; by injection Hc as <-. }
  unfold r2, r1. rewrite (Hd c1 cmd1) by done.
  destruct (sendCommand_step self cmd1 w Hlast Hnow1) as [Hacc _].
  destruct (Hacc Hopen) as (Hsent & _ & Hset & Hclk & Htk).
  rewrite (Hd c2 cmd2) by done.
  set (s1 := (sendCommand self cmd1 w).1) in *.
  set (w1 := (sendCommand self cmd1 w).2) in *.
  assert (Hnow : clock w1 (ticks w1) = now2) by (by rewrite Hclk, Htk).
  destruct (sendCommand_step s1 cmd2 w1) as [_ Hrej].
  { rewrite Hset. exact Hnow1. }
  { rewrite Hnow. exact Hnow2. }
  rewrite Hnow, Hset in Hrej. fold now1 in Hrej.
  rewrite (Hrej Hsoon). cbn [fst snd files].
  split; [exact Hsent|]. split; [by apply new_events_same|]. split; [exact Hset | done].
Qed.

(** Witness of the shared gate: the status request of the menu, then the
    send button 250 ms later. *)
Lemma slots_share_gate_witness :
  let self := Demo.window ∅ in
  let w := Demo.world [0; 0; 250] in
  let r1 := @dispatch Reference.textLib self ActionStatus w in
  let r2 := @dispatch Reference.textLib r1.1 (SendButton (literal "kick 3")) r1.2 in
  (clock w (ticks w) - lastCommand self >= 1000
   /\ clock w (S (S (ticks w))) - clock w (ticks w) < 1000)
  /\ rcon_sent (new_events w r1.2) = [literal "status"]
  /\ new_events r1.2 r2.2 = [].
Proof.
  intros self w r1 r2.
  assert (Hopen : clock w (ticks w) - lastCommand self >= 1000)
    by (vm_compute; discriminate).
  assert (Hsoon : clock w (S (S (ticks w))) - clock w (ticks w) < 1000)
    by (vm_compute; reflexivity).
  split; [by split|].
  pose proof (@slots_share_gate Reference.textLib ActionStatus
                (SendButton (literal "kick 3")) (literal "status") (literal "kick 3")
                self w eq_refl eq_refl
                ltac:(unfold clock_range; vm_compute; split; [discriminate | reflexivity])
                ltac:(unfold clock_range; vm_compute; split; [discriminate | reflexivity])
                ltac:(unfold clock_range; vm_compute; split; [discriminate | reflexivity])
                Hopen Hsoon) as Hgate.
  cbv zeta in Hgate. fold r1 in Hgate. fold r2 in Hgate.
  destruct Hgate as (Hg1 & Hg2 & _). split; [exact Hg1 | exact Hg2].
Defined.

(** *** Console output received from the server *)

(** The loop of [onReceiveRcon] when the log file can be written. *)
Lemma logLines_logged (self : t) (lines : list Output) (w : World) :
  QVariant_eq_literal (value (preferences self) "logging_enabled" (QVInt 1)) "0" = false ->
  logFileName self ∉ denied w ->
  exists evs,
    trace (logLines self lines w).2 = trace w ++ evs
    /\ log_writes evs = map getText lines
    /\ length (file_events evs) = (3 * length lines)%nat
    /\ denied (logLines self lines w).2 = denied w
    /\ handles (logLines self lines w).2 = handles w
    /\ files (logLines self lines w).2
       = match lines with
         | [] => files w
         | _ :: _ =>
             <[logFileName self :=
                 default "" (files w !! logFileName self)
                 +:+ joined (map getText lines)]> (files w)
         end.
Proof.
  intros Hon. revert w. induction lines as [|line rest IH]; intros w Hfree.
  - exists []. cbn. by rewrite app_nil_r.
  - cbn [logLines]. unfold mbind, M_bind.
    rewrite writeToLog_ok by done.
    set (w1 := mkWorld _ _ _ _ _ _).
    change (emit (InsertHtml (toHtml line)) w1)
      with (tt, mkWorld (clock w1) (ticks w1) (files w1) (denied w1) (handles w1)
                  (trace w1 ++ [InsertHtml (toHtml line)])).
    set (w2 := mkWorld _ _ _ _ _ (trace w1 ++ _)).
    destruct (IH w2) as (evs & Ht & Hw & Hn & Hd & Hh & Hf); [done|].
    exists ([FileOpen (logFileName self) (Z.lor WriteOnly Append) true;
             FileWrite (logFileName self) (getText line);
             FileClose (logFileName self);
             InsertHtml (toHtml line)] ++ evs).
    split_and!.
    + rewrite Ht. unfold w2, w1. cbn. by rewrite <- !app_assoc.
    + cbn. by rewrite <- Hw.
    + cbn [app file_events List.filter is_file_event]. fold (file_events evs).
      cbn [length]. rewrite Hn. lia.
    + by rewrite Hd.
    + by rewrite Hh.
    + rewrite Hf. unfold w2, w1. cbn [files map joined foldr].
      destruct rest as [|line2 rest].
      * cbn. by rewrite string_app_nil_r.
      * rewrite lookup_insert_eq, insert_insert_eq.
        unfold joined, default. cbn [from_option id foldr map].
        by rewrite string_app_assoc.
Qed.

(** With logging on and a log file that can be opened, [onReceiveRcon]
    appends the text of every parsed line to the log file, in order and
    with nothing in between, opening and closing the file once per line;
    when no line was parsed the file is not touched, not even created. *)
Theorem onReceiveRcon_logs_lines `{TextLib}
    (self : t) (output : QByteArray) (w : World) :
  let lines := OutputParser_parse output in
  let r := onReceiveRcon self output w in
  QVariant_eq_literal (value (preferences self) "logging_enabled" (QVInt 1)) "0" = false ->
  logFileName self ∉ denied w ->
  log_writes (new_events w r.2) = map getText lines
  /\ length (file_events (new_events w r.2)) = (3 * length lines)%nat
  /\ handles r.2 = handles w
  /\ (lines = [] -> files r.2 = files w)
  /\ (lines <> [] ->
      files r.2 !! logFileName self
      = Some (default "" (files w !! logFileName self) +:+ joined (map getText lines)))
  /\ (forall f, f <> logFileName self -> files r.2 !! f = files w !! f).
Proof.
  intros lines r Hon Hfree. unfold r, onReceiveRcon. fold lines. run_m.
  match goal with |- context [logLines ?s ?l ?w1] =>
    destruct (logLines_logged s l w1 Hon Hfree) as (evs & Ht & Hw & Hn & _ & Hh & Hf);
    destruct (logLines s l w1) as [[] w2] end.
  cbn [fst snd trace files handles denied] in *.
  rewrite Ht. erewrite new_events_app by (rewrite <- !app_assoc; reflexivity).
  split_and!.
  - unfold log_writes in *. rewrite omap_app, omap_app, Hw. cbn. by rewrite app_nil_r.
  - unfold file_events in *. rewrite !List.filter_app, !length_app, Hn. cbn. lia.
  - exact Hh.
  - intros Hnil. rewrite Hf. by rewrite Hnil.
  - intros Hsome. rewrite Hf. destruct lines; [done|]. apply lookup_insert_eq.
  - intros f Hne. rewrite Hf. destruct lines; [done|]. by apply lookup_insert_ne.
Qed.

(** Witness: one line received into a log that holds a record already. *)
Lemma onReceiveRcon_logs_lines_witness :
  let self := Demo.window ∅ in
  let w := mkWorld (fun _ => 0) 0
             {["log_10.0.0.1_28960.log" := "0 > status"]} ∅ [] [] in
  let r := @onReceiveRcon Reference.textLib self (literal "map: q3dm6") w in
  (QVariant_eq_literal (value (preferences self) "logging_enabled" (QVInt 1)) "0"
   = false /\ logFileName self ∉ denied w)
  /\ log_writes (new_events w r.2) = ["map: q3dm6"]
  /\ handles r.2 = handles w.
Proof.
  intros self w r.
  assert (Hon : QVariant_eq_literal
                  (value (preferences self) "logging_enabled" (QVInt 1)) "0" = false)
    by (vm_compute; reflexivity).
  assert (Hfree : logFileName self ∉ denied w).
  { apply (bool_decide_unpack _). vm_compute. exact I. }
  split; [by split|].
  destruct (@onReceiveRcon_logs_lines Reference.textLib self (literal "map: q3dm6") w
              Hon Hfree) as (Hw & _ & Hh & _).
  split; [exact Hw | exact Hh].
Defined.

(** Whatever the state of the logging, [onReceiveRcon] shows every parsed
    line: it moves the cursor to the end, inserts the markup of the lines
    in order and restores the cursor; it leaves the window as it was,
    reads no clock, sends nothing and shows no error. *)
Theorem onReceiveRcon_shows_lines `{TextLib}
    (self : t) (output : QByteArray) (w : World) :
  let lines := OutputParser_parse output in
  let r := onReceiveRcon self output w in
  r.1 = self
  /\ ticks r.2 = ticks w
  /\ (exists evs, new_events w r.2 = [MoveCursorEnd] ++ evs ++ [RestoreCursor]
                  /\ html_inserted evs = map toHtml lines)
  /\ html_inserted (new_events w r.2) = map toHtml lines
  /\ rcon_sent (new_events w r.2) = []
  /\ query_sent (new_events w r.2) = []
  /\ errors_raised (new_events w r.2) = [].
Proof.
  intros lines r. unfold r, onReceiveRcon. fold lines. run_m.
  match goal with |- context [logLines ?s ?l ?w1] =>
    destruct (logLines_trace s l w1) as (evs & Ht & Hh & Hr & Hq & He & _ & _ & Hk);
    destruct (logLines s l w1) as [[] w2] end.
  cbn [fst snd trace ticks] in *.
  rewrite Ht. erewrite new_events_app by (rewrite <- !app_assoc; reflexivity).
  split_and!; try done.
  - by exists evs.
  - unfold html_inserted in *. rewrite omap_app, omap_app, Hh. cbn. by rewrite app_nil_r.
  - unfold rcon_sent in *. by rewrite omap_app, omap_app, Hr.
  - unfold query_sent in *. by rewrite omap_app, omap_app, Hq.
  - unfold errors_raised in *. by rewrite omap_app, omap_app, He.
Qed.

(** *** Commands sent and their records *)

Section Logged.
Context `{TextLib}.

(** Only the three command slots reach the rcon client. *)
Lemma dispatch_rcon_sent (self : t) (c : Call) (w : World) :
  match command_of c with
  | Some cmd => dispatch self c w = sendCommand self cmd w
  | None => rcon_sent (new_events w (dispatch self c w).2) = []
            /\ (dispatch self c w).1 = self
  end.
Proof.
  destruct c as [text| | | |output|ctrl dir]; cbn [command_of dispatch]; try done.
  - unfold requestServerStatus. run_m. by erewrite new_events_app by reflexivity.
  - unfold onReceiveRcon. run_m.
    match goal with |- context [logLines ?s ?l ?w1] =>
      destruct (logLines_trace s l w1) as (evs & Ht & _ & Hr & _);
      destruct (logLines s l w1) as [[] w2] end.
    cbn [fst snd trace] in *. rewrite Ht.
    erewrite new_events_app by (rewrite <- !app_assoc; reflexivity).
    unfold rcon_sent in *. by rewrite omap_app, omap_app, Hr.
  - unfold on_actionView_log_triggered, openFileAsDefault. run_m.
    destruct ctrl; cbn; [by erewrite new_events_app by reflexivity|].
    destruct (bool_decide _); cbn; by erewrite new_events_app by reflexivity.
Qed.

Lemma dispatch_preferences (self : t) (c : Call) (w : World) :
  preferences (dispatch self c w).1 = preferences self.
Proof.
  pose proof (dispatch_rcon_sent self c w) as Hd.
  destruct (command_of c) as [cmd|].
  - rewrite Hd.
    destruct (msecsTo (lastCommand self) (clock w (ticks w)) <? 1000) eqn:Hgate.
    + by rewrite sendCommand_reject.
    + by rewrite sendCommand_accept.
  - destruct Hd as [_ ->]. done.
Qed.

(** One slot: what it sends it has written down. *)
Lemma dispatch_sends_logged (self : t) (c : Call) (w : World) (cmd : QByteArray) :
  QVariant_eq_literal (value (preferences self) "logging_enabled" (QVInt 1)) "0" = false ->
  logFileName self ∉ denied w ->
  cmd ∈ rcon_sent (new_events w (dispatch self c w).2) ->
  exists stamp : QDateTime,
    ((QDateTime_toString stamp +:+ " > " +:+ fromUtf8 cmd) +:+ LF +:+ LF)
    ∈ log_writes (new_events w (dispatch self c w).2).
Proof.
  intros Hon Hfree Hin.
  pose proof (dispatch_rcon_sent self c w) as Hd.
  destruct (command_of c) as [cmd'|].
  - rewrite Hd in *.
    destruct (msecsTo (lastCommand self) (clock w (ticks w)) <? 1000) eqn:Hgate.
    + destruct (sendCommand_reject_silent self cmd' w Hgate) as (_ & Hev & _).
      rewrite Hev in Hin. by apply elem_of_nil in Hin.
    + destruct (sendCommand_accept_sent self cmd' w Hgate) as (Hsent & _).
      rewrite Hsent in Hin. apply list_elem_of_singleton in Hin. subst cmd'.
      pose proof (sendCommand_accept_log self cmd w Hgate) as Hlog.
      cbv zeta in Hlog. rewrite Hon in Hlog.
      rewrite bool_decide_eq_false_2 in Hlog by done.
      destruct Hlog as [Hw _]. exists (clock w (S (ticks w))).
      rewrite Hw. by apply list_elem_of_singleton.
  - destruct Hd as [Hnone _]. rewrite Hnone in Hin. by apply elem_of_nil in Hin.
Qed.

(** With logging on and a log file that can be opened, every command a
    session hands to the rcon client has its record in the transcript:
    a timestamp, [" > "], the command and two line feeds. *)
Theorem session_sends_are_logged (self : t) (calls : list Call) (w : World)
    (cmd : QByteArray) :
  QVariant_eq_literal (value (preferences self) "logging_enabled" (QVInt 1)) "0" = false ->
  logFileName self ∉ denied w ->
  cmd ∈ rcon_sent (new_events w (session self calls w).2) ->
  exists stamp : QDateTime,
    ((QDateTime_toString stamp +:+ " > " +:+ fromUtf8 cmd) +:+ LF +:+ LF)
    ∈ log_writes (new_events w (session self calls w).2).
Proof.
  revert self w. induction calls as [|c rest IH]; intros self w Hon Hfree Hin.
  - cbn in Hin. rewrite new_events_same in Hin by done. by apply elem_of_nil in Hin.
  - cbn [session] in *. unfold mbind, M_bind in *.
    pose proof (dispatch_sends_logged self c w cmd Hon Hfree) as Hstep.
    pose proof (dispatch_preferences self c w) as Hprefs.
    destruct (appends_only_dispatch self c w) as [Hname (_ & Hden & _)].
    destruct (dispatch_trace self c w) as [e1 Ht1].
    destruct (dispatch self c w) as [self1 w1]. cbn [fst snd] in *.
    destruct (session_trace self1 rest w1) as [e2 Ht2].
    rewrite (new_events_trans w w1 _ e1 e2 Ht1 Ht2) in Hin.
    rewrite (new_events_trans w w1 _ e1 e2 Ht1 Ht2).
    unfold rcon_sent, log_writes in *. rewrite omap_app in Hin. rewrite omap_app.
    apply elem_of_app in Hin as [Hin|Hin].
    + destruct (Hstep Hin) as [stamp Hrec]. exists stamp.
      apply elem_of_app. by left.
    + destruct (IH self1 w1) as [stamp Hrec].
      * by rewrite Hprefs.
      * by rewrite Hname, Hden.
      * exact Hin.
      * exists stamp. apply elem_of_app. by right.
Qed.

End Logged.

(** Witness: the two commands of a short session are both on record. *)
Lemma session_sends_are_logged_witness :
  let self := Demo.window ∅ in
  let w := Demo.world [0; 5; 2000; 2003] in
  let calls := [ActionStatus; StatusTimer; SendButton (literal "kick 3")] in
  let r := @session Reference.textLib self calls w in
  (QVariant_eq_literal (value (preferences self) "logging_enabled" (QVInt 1)) "0"
   = false
   /\ (logFileName self ∉ denied w)
   /\ literal "kick 3" ∈ rcon_sent (new_events w r.2))
  /\ exists stamp : QDateTime,
       ((pretty stamp +:+ " > " +:+ "kick 3") +:+ LF +:+ LF)
       ∈ log_writes (new_events w r.2).
Proof.
  intros self w calls r.
  assert (Hon : QVariant_eq_literal
                  (value (preferences self) "logging_enabled" (QVInt 1)) "0" = false)
    by (vm_compute; reflexivity).
  assert (Hfree : logFileName self ∉ denied w).
  { apply (bool_decide_unpack _). vm_compute. exact I. }
  assert (Hin : literal "kick 3" ∈ rcon_sent (new_events w r.2)).
  { vm_compute. apply list_elem_of_In. right. left. reflexivity. }
  split; [by split_and!|].
  exact (@session_sends_are_logged Reference.textLib self calls w (literal "kick 3")
           Hon Hfree Hin).
Defined.

(** *** Looking at the log *)

(** Without the Control key, "View log" shows an error and opens nothing
    as long as the log file does not exist; once an accepted command has
    been recorded the file exists and is opened.  Neither case changes
    the window or the files. *)
Theorem view_log_after_send `{TextLib}
    (self : t) (command : QByteArray) (dir : QString) (w : World) :
  let before := on_actionView_log_triggered self false dir w in
  let sent := sendCommand self command w in
  let after := on_actionView_log_triggered sent.1 false dir sent.2 in
  files w !! logFileName self = None ->
  QVariant_eq_literal (value (preferences self) "logging_enabled" (QVInt 1)) "0" = false ->
  logFileName self ∉ denied w ->
  (msecsTo (lastCommand self) (clock w (ticks w)) <? 1000) = false ->
  (new_events w before.2
   = [MessageBoxCritical (QString_arg "'%1' does not exist." (logFileName self))]
   /\ urls_opened (new_events w before.2) = []
   /\ files before.2 = files w /\ before.1 = self)
  /\ (new_events sent.2 after.2 = [OpenUrl (logFileName self)]
      /\ errors_raised (new_events sent.2 after.2) = []
      /\ files after.2 = files sent.2 /\ after.1 = sent.1).
Proof.
  intros before sent after Hnone Hon Hfree Hgate. split.
  - unfold before, on_actionView_log_triggered, openFileAsDefault. run_m.
    rewrite bool_decide_eq_false_2 by (rewrite Hnone; by intros [? ?]).
    cbn. erewrite new_events_app by reflexivity. done.
  - pose proof (sendCommand_accept_log self command w Hgate) as Hlog.
    cbv zeta in Hlog. fold sent in Hlog. rewrite Hon in Hlog.
    rewrite bool_decide_eq_false_2 in Hlog by done.
    destruct Hlog as [_ Hfiles].
    assert (Hname : logFileName sent.1 = logFileName self)
      by apply appends_only_sendCommand.
    unfold after, on_actionView_log_triggered, openFileAsDefault. run_m.
    rewrite Hname.
    rewrite bool_decide_eq_true_2
      by (rewrite Hfiles, lookup_insert_eq; by eexists).
    cbn. erewrite new_events_app by reflexivity. done.
Qed.

(** Witness: the demonstration window before and after its first
    command. *)
Lemma view_log_after_send_witness :
  let self := Demo.window ∅ in
  let w := Demo.world [0; 0] in
  let before := @on_actionView_log_triggered Reference.textLib self false "/opt" w in
  let sent := @sendCommand Reference.textLib self (literal "status") w in
  let after :=
    @on_actionView_log_triggered Reference.textLib sent.1 false "/opt" sent.2 in
  files w !! logFileName self = None
  /\ new_events w before.2
     = [MessageBoxCritical "'log_10.0.0.1_28960.log' does not exist."]
  /\ new_events sent.2 after.2 = [OpenUrl "log_10.0.0.1_28960.log"].
Proof.
  intros self w before sent after.
  assert (Hnone : files w !! logFileName self = None) by (vm_compute; reflexivity).
  split; [exact Hnone|].
  destruct (@view_log_after_send Reference.textLib self (literal "status") "/opt" w
              Hnone ltac:(vm_compute; reflexivity)
              ltac:(apply (bool_decide_unpack _); vm_compute; exact I)
              ltac:(vm_compute; reflexivity)) as [(Hb & _) (Ha & _)].
  split; [exact Hb | exact Ha].
Defined.

(** *** The list of the completer *)

Import Completion.

Lemma contains_elem (l : list QString) (x : QString) :
  contains l x = true <-> x ∈ l.
Proof.
  unfold contains. rewrite existsb_exists. split.
  - intros (y & Hin & Heq). apply String.eqb_eq in Heq. subst y.
    by apply list_elem_of_In.
  - intros Hin. exists x. split; [by apply list_elem_of_In | apply String.eqb_refl].
Qed.

(** One line: it is appended exactly when it is new and not empty. *)
Lemma addCommand_cases (acc : list QString) (x : QString) :
  (x <> "" /\ (x ∉ acc) /\ addCommand acc x = acc ++ [x])
  \/ ((x = "" \/ x ∈ acc) /\ addCommand acc x = acc).
Proof.
  unfold addCommand.
  destruct (String.eqb_spec x "") as [->|Hne]; cbn; [right; by split; [left|]|].
  destruct (contains acc x) eqn:Hc; cbn.
  - right. split; [right; by apply contains_elem | done].
  - left. split; [done|]. split; [|done].
    intros Hin. apply contains_elem in Hin. congruence.
Qed.

(** The loop from any list gathered so far. *)
Lemma collect_from (lines acc : list QString) :
  NoDup acc -> "" ∉ acc ->
  exists added,
    fold_left addCommand lines acc = acc ++ added
    /\ NoDup (acc ++ added)
    /\ ("" ∉ added)
    /\ sublist added lines
    /\ (forall x, x ∈ added <-> x ∈ lines /\ x <> "" /\ x ∉ acc).
Proof.
  revert acc. induction lines as [|x lines IH]; intros acc Hnd Hne.
  - exists []. rewrite app_nil_r. split_and!; try done.
    + by apply not_elem_of_nil.
    + intros x. split; [by intros ?%elem_of_nil | by intros [?%elem_of_nil _]].
  - cbn [fold_left].
    destruct (addCommand_cases acc x) as [(Hx & Hnew & ->)|(Hold & ->)].
    + destruct (IH (acc ++ [x])) as (added & Hfold & Hnd' & Hne' & Hsub & Hin).
      { apply NoDup_app. split_and!; [done | | apply NoDup_singleton].
        intros y Hy ->%list_elem_of_singleton. done. }
      { rewrite elem_of_app, list_elem_of_singleton. intros [?|?]; [done | congruence]. }
      exists (x :: added). rewrite Hfold, <- app_assoc. cbn.
      rewrite <- app_assoc in Hnd'. cbn in Hnd'.
      split_and!; try done.
      * rewrite elem_of_cons. intros [?|?]; [congruence | done].
      * by apply sublist_skip.
      * intros y. rewrite elem_of_cons, Hin, elem_of_cons, elem_of_app,
          list_elem_of_singleton.
        split.
        -- intros [->|(Hy & Hyne & Hnot)]; [by split_and!; [left|..]|].
           split_and!; [by right | done | tauto].
        -- intros ([->|Hy] & Hyne & Hnot); [by left|].
           destruct (decide (y = x)) as [->|Hdiff]; [by left|].
           right. split_and!; try done. tauto.
    + destruct (IH acc Hnd Hne) as (added & Hfold & Hnd' & Hne' & Hsub & Hin).
      exists added. split_and!; try done.
      * by apply sublist_cons.
      * intros y. rewrite Hin, elem_of_cons. split.
        -- intros (Hy & Hyne & Hnot). by split_and!; [right|..].
        -- intros ([->|Hy] & Hyne & Hnot); [|done].
           destruct Hold as [->|Hold]; done.
Qed.

(** The list given to the completer holds every non-empty line of the
    file and nothing else, each once. *)
Theorem completer_commands_set (lines : list QString) :
  NoDup (collect lines)
  /\ ("" ∉ collect lines)
  /\ (forall x, x ∈ collect lines <-> x ∈ lines /\ x <> "").
Proof.
  destruct (collect_from lines [] (NoDup_nil_2) (not_elem_of_nil _))
    as (added & Hfold & Hnd & Hne & _ & Hin).
  unfold collect. rewrite Hfold. cbn in *. split_and!; try done.
  intros x. rewrite Hin. split.
  - by intros (? & ? & _).
  - intros [? ?]. split_and!; try done. apply not_elem_of_nil.
Qed.



(** Loading the completer list only reads: the files and the handles
    are afterwards as before.  Without a file that can be opened the
    list is empty and no error is shown; otherwise the file is opened
    read-only and closed again. *)
Theorem loadAutoCompletionCommands_reads_only
    (readLines : string -> list QString) (w : World) :
  let r := loadAutoCompletionCommands readLines w in
  files r.2 = files w
  /\ handles r.2 = handles w
  /\ errors_raised (new_events w r.2) = []
  /\ log_writes (new_events w r.2) = []
  /\ (files w !! autoCompletionFileName = None \/ autoCompletionFileName ∈ denied w ->
      r.1 = []
      /\ new_events w r.2 = [FileOpen autoCompletionFileName ReadOnly false])
  /\ (forall content,
        files w !! autoCompletionFileName = Some content ->
        autoCompletionFileName ∉ denied w ->
        r.1 = collect (readLines content)
        /\ new_events w r.2 = [FileOpen autoCompletionFileName ReadOnly true;
                               FileClose autoCompletionFileName]).
Proof.
  intros r. unfold r, loadAutoCompletionCommands, QFile_open.
  generalize autoCompletionFileName. intros name. run_m.
  destruct (bool_decide_reflect (name ∈ denied w)) as [Hden|Hden].
  - run_m. erewrite new_events_app by reflexivity.
    split_and!; done.
  - destruct (files w !! name) as [content|] eqn:Hfile.
    + change (truncates ReadOnly) with false. run_m. unfold contentOf. run_m.
      unfold QString in *. rewrite Hfile, String.eqb_refl.
      erewrite new_events_app by (rewrite <- !app_assoc; reflexivity).
      split_and!; try done.
      * intros [?|?]; done.
      * by intros ? [= <-] _.
    + change (writable ReadOnly) with false. run_m.
      erewrite new_events_app by reflexivity.
      split_and!; done.
Qed.

(** Witness: a file of four lines, one empty and one repeated. *)
Lemma loadAutoCompletionCommands_reads_only_witness :
  let text := "status" +:+ LF +:+ LF +:+ "kick" +:+ LF +:+ "status" +:+ LF in
  let w := mkWorld (fun _ => 0) 0 {["commands.txt" := text]} ∅ [] [] in
  (files w !! autoCompletionFileName = Some text /\ autoCompletionFileName ∉ denied w)
  /\ (loadAutoCompletionCommands (cutLines "") w).1 = ["status"; "kick"]
  /\ files (loadAutoCompletionCommands (cutLines "") w).2 = files w.
Proof.
  intros text w.
  assert (Hfile : files w !! autoCompletionFileName = Some text)
    by (vm_compute; reflexivity).
  assert (Hfree : autoCompletionFileName ∉ denied w).
  { apply (bool_decide_unpack _). vm_compute. exact I. }
  split; [by split|].
  destruct (loadAutoCompletionCommands_reads_only (cutLines "") w)
    as (Hfiles & _ & _ & _ & _ & Hread).
  destruct (Hread text Hfile Hfree) as [Hlist _].
  split; [|exact Hfiles]. rewrite Hlist. vm_compute. reflexivity.
Defined.

(** *** Start-up *)

(** [main] never reads an argument that is not there.  It asks for a
    connection exactly when there are at least three arguments and the
    second is [--connect], with the third as the address, and it shows
    the server window exactly when no connection was made. *)
Theorem main_startup (arguments : list QString) (connectToServer : QString -> bool) :
  exists actions,
    Main.main arguments connectToServer = Some actions
    /\ (forall address,
          Main.ConnectToServer address ∈ actions
          <-> ((3 <= length arguments)%nat
               /\ arguments !! 1%nat = Some "--connect"
               /\ arguments !! 2%nat = Some address))
    /\ (Main.ShowWindow ∈ actions
        <-> ~ (exists address,
                 (3 <= length arguments)%nat
                 /\ arguments !! 1%nat = Some "--connect"
                 /\ arguments !! 2%nat = Some address
                 /\ connectToServer address = true)).
Proof.
  unfold Main.main.
  destruct (Nat.leb_spec 3 (length arguments)) as [Hlen|Hlen].
  - destruct arguments as [|a0 [|a1 [|a2 rest]]]; cbn in Hlen; try lia.
    cbn. destruct (String.eqb_spec a1 "--connect") as [->|Hne].
    + destruct (connectToServer a2) eqn:Hconn; eexists; (split; [reflexivity|]).
      * split.
        -- intros address. rewrite list_elem_of_singleton. split.
           ++ intros [= <-]. split_and!; [lia | done | done].
           ++ intros (_ & _ & [= <-]). done.
        -- split.
           ++ intros Hin. apply list_elem_of_singleton in Hin. done.
           ++ intros Hno. exfalso. apply Hno. exists a2. split_and!; [lia | done..].
      * split.
        -- intros address. rewrite elem_of_cons, list_elem_of_singleton. split.
           ++ intros [[= <-]|?]; [|done]. split_and!; [lia | done | done].
           ++ intros (_ & _ & [= <-]). by left.
        -- split.
           ++ intros _ (address & _ & _ & [= <-] & Hyes). congruence.
           ++ intros _. apply elem_of_cons. right. by apply list_elem_of_singleton.
    + eexists. split; [reflexivity|]. split.
      * intros address. rewrite list_elem_of_singleton. split; [done|].
        intros (_ & [= ?] & _). done.
      * split.
        -- intros _ (address & _ & [= ?] & _). done.
        -- intros _. by apply list_elem_of_singleton.
  - eexists. split; [reflexivity|]. split.
    + intros address. rewrite list_elem_of_singleton. split; [done|].
      intros (? & _). lia.
    + split.
      * intros _ (address & ? & _). lia.
      * intros _. by apply list_elem_of_singleton.
Qed.

(** Witness: [--connect] with an address that cannot be reached. *)
Lemma main_startup_witness :
  let arguments := ["qtercon"; "--connect"; "10.0.0.1:28960"] in
  let unreachable := fun _ : QString => false in
  (~ exists address,
       (3 <= length arguments)%nat
       /\ arguments !! 1%nat = Some "--connect"
       /\ arguments !! 2%nat = Some address
       /\ unreachable address = true)
  /\ exists actions,
       Main.main arguments unreachable = Some actions
       /\ Main.ConnectToServer "10.0.0.1:28960" ∈ actions
       /\ Main.ShowWindow ∈ actions.
Proof.
  intros arguments unreachable.
  assert (Hno : ~ exists address,
                    (3 <= length arguments)%nat
                    /\ arguments !! 1%nat = Some "--connect"
                    /\ arguments !! 2%nat = Some address
                    /\ unreachable address = true)
    by (intros (address & _ & _ & _ & Hyes); discriminate Hyes).
  split; [exact Hno|].
  destruct (main_startup arguments unreachable) as (actions & Hmain & Hconn & Hshow).
  exists actions. split; [exact Hmain|]. split.
  - apply Hconn. split; [cbn; lia|]. split; reflexivity.
  - apply Hshow. exact Hno.
Defined.

(** Witness of the completer list: a repeated line and an empty one. *)
Lemma completer_commands_set_witness :
  ("kick" ∈ ["status"; ""; "kick"; "status"] /\ "kick" <> "")
  /\ "kick" ∈ collect ["status"; ""; "kick"; "status"].
Proof.
  assert (Hin : "kick" ∈ ["status"; ""; "kick"; "status"]).
  { apply (bool_decide_unpack _). vm_compute. exact I. }
  assert (Hne : "kick" <> "") by discriminate.
  split; [by split|].
  exact (proj2 (proj2 (proj2 (completer_commands_set _)) "kick") (conj Hin Hne)).
Defined.

(** *** The echo of a command *)

(** An accepted command is echoed in the output widget whatever the
    logging does: the cursor is moved to the end and one piece of markup
    is inserted, the record followed by two line breaks, stamped with the
    second clock reading of the call (the gate used the first).  A
    rejected command is not echoed. *)
Theorem sendCommand_echo `{TextLib} (self : t) (command : QByteArray) (w : World) :
  let r := sendCommand self command w in
  let output :=
    QDateTime_toString (clock w (S (ticks w))) +:+ " > " +:+ fromUtf8 command in
  if msecsTo (lastCommand self) (clock w (ticks w)) <? 1000
  then html_inserted (new_events w r.2) = [] /\ ticks r.2 = S (ticks w)
  else html_inserted (new_events w r.2) = [output +:+ "<br /><br />"]
       /\ head (new_events w r.2) = Some MoveCursorEnd
       /\ lastCommand r.1 = clock w (ticks w)
       /\ ticks r.2 = S (S (ticks w)).
Proof.
  intros r output.
  destruct (msecsTo (lastCommand self) (clock w (ticks w)) <? 1000) eqn:Hgate.
  - unfold r. rewrite sendCommand_reject by done. cbn [fst snd ticks].
    by rewrite new_events_same.
  - destruct (sendCommand_accept_clock self command w Hgate) as (_ & Htk & _).
    fold r in Htk. unfold r. rewrite sendCommand_accept by done.
    cbn [fst snd trace lastCommand set_lastCommand].
    match goal with |- context [writeToLog ?s ?l ?w1] =>
      destruct (writeToLog_file_events s l w1) as (evs & Ht & Hfile) end.
    destruct (log_events_quiet "" evs Hfile) as (_ & _ & _ & Hhtml & _).
    rewrite Ht. cbn [trace].
    erewrite new_events_app by (rewrite <- !app_assoc; reflexivity).
    unfold html_inserted in *. rewrite omap_app, omap_app, Hhtml.
    split_and!; try done.
    unfold r in Htk. by rewrite sendCommand_accept in Htk.
Qed.
